(** * raw_echo: a bounded echo service on raw connections

    A shallow embedding of [c/examples/raw_echo.c] (qpid-proton) and the
    properties of its connection-slot table, echo pipeline and idle
    timer.

    The program is a single-threaded event handler.  Every handler is
    embedded as a function in a small monad that threads the program's
    mutable state, collects the calls made to the proactor and to libc in
    the order they are made, and stops on undefined behaviour.  Whatever
    the handler obtains from outside while it runs (the clock, the result
    of [malloc], the buffers the engine gives back) travels with the
    event. *)

From Stdlib Require Import ZArith Lia.
From stdpp Require Import base list gmap strings.

Local Open Scope Z_scope.

(** ** Machine integers and pointers *)

(** Conversion to a signed [w]-bit integer (two's complement).  The
    arithmetic on [int] and [int64_t] fields is written with the
    wrap-around of the machine: the handlers below compute what the
    compiled program computes.  Where a signed operation overflows the C
    standard leaves the program undefined; [signed_overflow] says where
    that happens, and [handle_strict] and [run_strict] are the handlers
    under that reading. *)
Definition wrap (w : Z) (x : Z) : Z := (x + 2 ^ (w - 1)) mod 2 ^ w - 2 ^ (w - 1).

Definition to_int (x : Z) : Z := wrap 32 x.
Definition to_int64 (x : Z) : Z := wrap 64 x.

Definition int_range (x : Z) : Prop := - 2 ^ 31 <= x < 2 ^ 31.
Definition int64_range (x : Z) : Prop := - 2 ^ 63 <= x < 2 ^ 63.

(** Pointers to objects of the engine and to byte arrays are opaque
    addresses; [NULL] is address 0. *)
Definition pointer := Z.
Definition NULL : pointer := 0.

Definition is_null (p : pointer) : bool := p =? NULL.

(** ** Data *)

(** [app_data_t].  The fields [host], [port], [amqp_address] and
    [proactor] are written once in [main] and never read by a handler;
    they are left out. *)
Record app_data_t := mk_app {
  listener : pointer;
  first_idle_time : Z;
  try_accept_time : Z;
  wake_conn_time : Z;
  connects : Z;
  disconnects : Z
}.

Definition MAX_CONNECTIONS : nat := 5.

Record conn_data_t := mk_conn_data {
  connection : pointer;
  last_recv_time : Z;
  bytes : Z;
  buffers : Z
}.

(** [pn_raw_buffer_t] of <proton/raw_connection.h>. *)
Record pn_raw_buffer_t := mk_raw_buffer {
  buf_context : Z;
  buf_bytes : pointer;
  buf_capacity : Z;
  buf_size : Z;
  buf_offset : Z
}.

Definition READ_BUFFERS : nat := 4.

Inductive pn_event_type_t :=
| PN_LISTENER_OPEN
| PN_LISTENER_ACCEPT
| PN_LISTENER_CLOSE
| PN_PROACTOR_TIMEOUT
| PN_PROACTOR_INACTIVE
| PN_RAW_CONNECTION_CONNECTED
| PN_RAW_CONNECTION_WAKE
| PN_RAW_CONNECTION_DISCONNECTED
| PN_RAW_CONNECTION_NEED_READ_BUFFERS
| PN_RAW_CONNECTION_READ
| PN_RAW_CONNECTION_CLOSED_WRITE
| PN_RAW_CONNECTION_CLOSED_READ
| PN_RAW_CONNECTION_WRITTEN
| PN_EVENT_OTHER.   (* every type that both switches send to [default] *)

#[global] Instance pn_event_type_eq_dec : EqDecision pn_event_type_t.
Proof. solve_decision. Defined.

(** What one call of [pn_raw_connection_take_read_buffers] or
    [pn_raw_connection_take_written_buffers] stored into [buffs]
    (its length is the returned [n]), and what
    [pn_raw_connection_is_write_closed] and
    [pn_raw_connection_is_read_closed] answer right after it. *)
Record taken_t := mk_taken {
  taken_buffers : list pn_raw_buffer_t;
  write_closed : bool;
  read_closed : bool
}.

(** An event, with the answers the handler gets from the engine and from
    libc while it handles the event. *)
Record pn_event_t := mk_event {
  event_type : pn_event_type_t;
  event_raw_connection : pointer;          (* pn_event_raw_connection(e) *)
  event_listener : pointer;                (* pn_event_listener(e) *)
  condition : option (string * string);    (* name and description when the condition is set *)
  now_64 : Z;                              (* pn_proactor_now_64() *)
  new_raw_connection : pointer;            (* pn_raw_connection() *)
  listener_port : string;                  (* port read by pn_netaddr_host_port *)
  malloc_results : list pointer;           (* successive results of malloc(1024) *)
  taken : list taken_t                     (* successive results of take_*_buffers *)
}.

(** Calls to the engine and to libc that leave the program. *)
Inductive action :=
| printf_listening (port : string)
| fflush_stdout
| printf_too_many_connections
| printf_idle_detected (timeout : Z)
| printf_connected (slot : Z)
| printf_connected_not_connected
| printf_woken (slot : Z)
| printf_disconnected (slot : Z) (nbytes nbuffers : Z)
| printf_disconnected_not_connected
| fprintf_stderr_condition (t : pn_event_type_t) (name description : string)
| fwrite_stdout (p : pointer) (size : Z)
| free (p : pointer)
| pn_raw_connection_close (c : pointer)
| pn_listener_close (l : pointer)
| pn_listener_raw_accept (l c : pointer)
| pn_raw_connection_give_read_buffers (c : pointer) (bufs : list pn_raw_buffer_t)
| pn_raw_connection_write_buffers (c : pointer) (bufs : list pn_raw_buffer_t)
| pn_raw_connection_wake (c : pointer)
| pn_proactor_set_timeout (ms : Z).

(** The mutable state: the [app] structure of [main], the globals
    [conn_data] and [exit_code], and the context pointer the engine keeps
    for each raw connection.  A context is always the address of an entry
    of [conn_data]; it is kept as the index of that entry, and a
    connection without an entry in the map has a null context. *)
Record state := mk_state {
  app : app_data_t;
  conn_data : list conn_data_t;
  exit_code : Z;
  contexts : gmap Z nat
}.

(** ** The handler monad *)

Inductive undefined_behaviour :=
| NullDereference        (* access through a null [conn_data_t *] *)
| NullPointerDifference  (* [cd - conn_data] with a null [cd] *)
| OutOfBounds            (* index outside [conn_data] *)
| SignedOverflow.        (* a signed [int] or [int64_t] operation whose result does not fit *)

Inductive outcome (A : Type) :=
| Ok (a : A)
| Undefined (u : undefined_behaviour).
Arguments Ok {A} a.
Arguments Undefined {A} u.

Definition M (A : Type) : Type := state -> outcome (A * state * list action).

Definition ret {A} (a : A) : M A := fun s => Ok (a, s, []).

Definition bind {A B} (m : M A) (k : A -> M B) : M B :=
  fun s =>
    match m s with
    | Ok (a, s1, t1) =>
        match k a s1 with
        | Ok (b, s2, t2) => Ok (b, s2, t1 ++ t2)
        | Undefined u => Undefined u
        end
    | Undefined u => Undefined u
    end.

Notation "x <- m ;; k" := (bind m (fun x => k))
  (at level 100, m at next level, right associativity).
Notation "m ;; k" := (bind m (fun _ => k))
  (at level 100, right associativity).

Definition undefined {A} (u : undefined_behaviour) : M A := fun _ => Undefined u.
Definition call (a : action) : M unit := fun s => Ok (tt, s, [a]).
Definition get : M state := fun s => Ok (s, s, []).
Definition modify (f : state -> state) : M unit := fun s => Ok (tt, f s, []).
Definition when (b : bool) (m : M unit) : M unit := if b then m else ret tt.

(** Field updates. *)
Definition set_app (f : app_data_t -> app_data_t) (s : state) : state :=
  mk_state (f (app s)) (conn_data s) (exit_code s) (contexts s).
Definition set_conn_data (f : list conn_data_t -> list conn_data_t) (s : state) : state :=
  mk_state (app s) (f (conn_data s)) (exit_code s) (contexts s).
Definition set_exit_code (x : Z) (s : state) : state :=
  mk_state (app s) (conn_data s) x (contexts s).
Definition set_contexts (f : gmap Z nat -> gmap Z nat) (s : state) : state :=
  mk_state (app s) (conn_data s) (exit_code s) (f (contexts s)).

Definition with_listener (l : pointer) (a : app_data_t) : app_data_t :=
  mk_app l (first_idle_time a) (try_accept_time a) (wake_conn_time a)
         (connects a) (disconnects a).
Definition with_first_idle_time (t : Z) (a : app_data_t) : app_data_t :=
  mk_app (listener a) t (try_accept_time a) (wake_conn_time a)
         (connects a) (disconnects a).
Definition with_try_accept_time (t : Z) (a : app_data_t) : app_data_t :=
  mk_app (listener a) (first_idle_time a) t (wake_conn_time a)
         (connects a) (disconnects a).
Definition with_wake_conn_time (t : Z) (a : app_data_t) : app_data_t :=
  mk_app (listener a) (first_idle_time a) (try_accept_time a) t
         (connects a) (disconnects a).
Definition with_connects (n : Z) (a : app_data_t) : app_data_t :=
  mk_app (listener a) (first_idle_time a) (try_accept_time a) (wake_conn_time a)
         n (disconnects a).
Definition with_disconnects (n : Z) (a : app_data_t) : app_data_t :=
  mk_app (listener a) (first_idle_time a) (try_accept_time a) (wake_conn_time a)
         (connects a) n.

Definition with_connection (c : pointer) (d : conn_data_t) : conn_data_t :=
  mk_conn_data c (last_recv_time d) (bytes d) (buffers d).
Definition with_last_recv_time (t : Z) (d : conn_data_t) : conn_data_t :=
  mk_conn_data (connection d) t (bytes d) (buffers d).
Definition with_bytes (n : Z) (d : conn_data_t) : conn_data_t :=
  mk_conn_data (connection d) (last_recv_time d) n (buffers d).
Definition with_buffers (n : Z) (d : conn_data_t) : conn_data_t :=
  mk_conn_data (connection d) (last_recv_time d) (bytes d) n.

(** [conn_data[i]] read and written; the index is checked. *)
Definition load (i : nat) : M conn_data_t :=
  fun s =>
    match conn_data s !! i with
    | Some d => Ok (d, s, [])
    | None => Undefined OutOfBounds
    end.

Definition store (i : nat) (f : conn_data_t -> conn_data_t) : M unit :=
  d <- load i ;; modify (set_conn_data (fun t => <[i := f d]> t)).

(** A [conn_data_t *] is null or the address of [conn_data[i]]. *)
Definition deref (cd : option nat) : M nat :=
  match cd with
  | Some i => ret i
  | None => undefined NullDereference
  end.

(** [cd - conn_data] *)
Definition slot_number (cd : option nat) : M Z :=
  match cd with
  | Some i => ret (Z.of_nat i)
  | None => undefined NullPointerDifference
  end.

Definition pn_raw_connection_get_context (c : pointer) : M (option nat) :=
  fun s => Ok (contexts s !! c, s, []).

Definition pn_raw_connection_set_context (c : pointer) (cd : option nat) : M unit :=
  modify (set_contexts (fun m => match cd with
                                 | Some i => <[c := i]> m
                                 | None => delete c m
                                 end)).

(** [pn_raw_connection()]: the new object (its address comes with the
    event) has a null context. *)
Definition pn_raw_connection (c : pointer) : M pointer :=
  modify (set_contexts (delete c)) ;; ret c.

(** ** The program *)

Definition close_all (c : pointer) : M unit :=
  when (negb (is_null c)) (call (pn_raw_connection_close c)) ;;
  s <- get ;;
  when (negb (is_null (listener (app s)))) (call (pn_listener_close (listener (app s)))).

Definition check_condition (e : pn_event_t) (cond : option (string * string)) : M bool :=
  match cond with
  | Some (name, description) =>
      call (fprintf_stderr_condition (event_type e) name description) ;;
      ret true
  | None => ret false
  end.

Definition check_condition_fatal (e : pn_event_t) (cond : option (string * string)) : M unit :=
  b <- check_condition e cond ;;
  when b (close_all (event_raw_connection e) ;; modify (set_exit_code 1)).

Definition recv_message (buf : pn_raw_buffer_t) : M unit :=
  call (fwrite_stdout (buf_bytes buf) (buf_size buf)).

(** The loop of [make_conn_data], [k] iterations left, at index [i]. *)
Fixpoint make_conn_data_loop (k : nat) (i : nat) (c : pointer) : M (option nat) :=
  match k with
  | O => ret None
  | S k' =>
      d <- load i ;;
      if is_null (connection d)
      then store i (with_connection c) ;; ret (Some i)
      else make_conn_data_loop k' (S i) c
  end.

Definition make_conn_data (c : pointer) : M (option nat) :=
  make_conn_data_loop MAX_CONNECTIONS 0 c.

Definition free_conn_data (c : option nat) : M unit :=
  match c with
  | None => ret tt
  | Some i => store i (with_connection NULL)
  end.

(** The allocation loop of [PN_RAW_CONNECTION_CONNECTED]: [i] counts
    down from [READ_BUFFERS]; each turn takes the next result of
    [malloc(1024)] (an exhausted list stands for a failing [malloc]) and
    fills [buffers[READ_BUFFERS-i]].  The result of [malloc] is not
    tested. *)
Fixpoint fill_read_buffers (i : nat) (mallocs : list pointer)
    (bufs : list pn_raw_buffer_t) : list pn_raw_buffer_t :=
  match i with
  | O => bufs
  | S i' =>
      let k := (READ_BUFFERS - i)%nat in
      let old := default (mk_raw_buffer 0 NULL 0 0 0) (bufs !! k) in
      let buff := mk_raw_buffer (buf_context old) (hd NULL mallocs) 1024 0 0 in
      fill_read_buffers i' (tl mallocs) (<[k := buff]> bufs)
  end.

(** [for (i=0; i<n && buffs[i].bytes; ++i) { cd->bytes += buffs[i].size; recv_message(buffs[i]); }] *)
Fixpoint recv_loop (cd : nat) (buffs : list pn_raw_buffer_t) : M unit :=
  match buffs with
  | [] => ret tt
  | b :: rest =>
      if is_null (buf_bytes b) then ret tt
      else
        store cd (fun d => with_bytes (to_int (bytes d + buf_size b)) d) ;;
        recv_message b ;;
        recv_loop cd rest
  end.

(** [for (i=0; i<n && buffs[i].bytes; ++i) free(buffs[i].bytes);] *)
Fixpoint free_loop (buffs : list pn_raw_buffer_t) : M unit :=
  match buffs with
  | [] => ret tt
  | b :: rest =>
      if is_null (buf_bytes b) then ret tt
      else call (free (buf_bytes b)) ;; free_loop rest
  end.

(** The [while] loop of [PN_RAW_CONNECTION_READ]; it ends when a call
    of [pn_raw_connection_take_read_buffers] returns 0. *)
Fixpoint read_loop (cd : nat) (c : pointer) (batches : list taken_t) : M unit :=
  match batches with
  | [] => ret tt
  | b :: rest =>
      let buffs := taken_buffers b in
      let n := length buffs in
      if (n =? 0)%nat then ret tt
      else
        recv_loop cd buffs ;;
        store cd (fun d => with_buffers (to_int (buffers d + Z.of_nat n)) d) ;;
        (if negb (write_closed b) then call (pn_raw_connection_write_buffers c buffs)
         else if negb (read_closed b) then call (pn_raw_connection_give_read_buffers c buffs)
         else free_loop buffs) ;;
        read_loop cd c rest
  end.

(** The [while] loop of [PN_RAW_CONNECTION_WRITTEN]. *)
Fixpoint written_loop (c : pointer) (batches : list taken_t) : M unit :=
  match batches with
  | [] => ret tt
  | b :: rest =>
      let buffs := taken_buffers b in
      if (length buffs =? 0)%nat then ret tt
      else
        (if negb (read_closed b) then call (pn_raw_connection_give_read_buffers c buffs)
         else free_loop buffs) ;;
        written_loop c rest
  end.

Definition handle_receive (e : pn_event_t) : M unit :=
  match event_type e with
  | PN_RAW_CONNECTION_CONNECTED =>
      let c := event_raw_connection e in
      cd <- pn_raw_connection_get_context c ;;
      let bufs := replicate READ_BUFFERS (mk_raw_buffer 0 NULL 0 0 0) in
      match cd with
      | Some i =>
          call (printf_connected (Z.of_nat i)) ;;
          modify (set_app (fun a => with_connects (to_int (connects a + 1)) a)) ;;
          call (pn_raw_connection_give_read_buffers c
                  (fill_read_buffers READ_BUFFERS (malloc_results e) bufs))
      | None => call printf_connected_not_connected
      end
  | PN_RAW_CONNECTION_WAKE =>
      let c := event_raw_connection e in
      cd <- pn_raw_connection_get_context c ;;
      n <- slot_number cd ;;
      call (printf_woken n)
  | PN_RAW_CONNECTION_DISCONNECTED =>
      let c := event_raw_connection e in
      cd <- pn_raw_connection_get_context c ;;
      match cd with
      | Some i =>
          d <- load i ;;
          call (printf_disconnected (Z.of_nat i) (bytes d) (buffers d))
      | None => call printf_disconnected_not_connected
      end ;;
      modify (set_app (fun a => with_disconnects (to_int (disconnects a + 1)) a)) ;;
      check_condition e (condition e) ;;
      free_conn_data cd
  | PN_RAW_CONNECTION_NEED_READ_BUFFERS => ret tt
  | PN_RAW_CONNECTION_READ =>
      let c := event_raw_connection e in
      cd <- pn_raw_connection_get_context c ;;
      i <- deref cd ;;
      store i (with_last_recv_time (now_64 e)) ;;
      read_loop i c (taken e)
  | PN_RAW_CONNECTION_CLOSED_WRITE
  | PN_RAW_CONNECTION_CLOSED_READ =>
      let c := event_raw_connection e in
      call (pn_raw_connection_close c)
  | PN_RAW_CONNECTION_WRITTEN =>
      let c := event_raw_connection e in
      written_loop c (taken e)
  | _ => ret tt
  end.

(** The wake loop of [PN_PROACTOR_TIMEOUT], [k] iterations left, at
    index [i]. *)
Fixpoint wake_loop (k : nat) (i : nat) : M unit :=
  match k with
  | O => ret tt
  | S k' =>
      d <- load i ;;
      when (negb (is_null (connection d))) (call (pn_raw_connection_wake (connection d))) ;;
      wake_loop k' (S i)
  end.

(** The body of [case PN_PROACTOR_TIMEOUT] up to the final
    [pn_proactor_set_timeout]: the result is the value of [timeout], or
    [None] when the [break] after [pn_listener_close] leaves the case. *)
Definition handle_timeout (e : pn_event_t) : M (option Z) :=
  let now := now_64 e in
  s <- get ;;
  if to_int (connects (app s) - disconnects (app s)) =? 0 then
    if first_idle_time (app s) =? 0 then
      call (printf_idle_detected 20000) ;;
      modify (set_app (with_first_idle_time now)) ;;
      ret (Some 20000)
    else if to_int64 (first_idle_time (app s) + 20000) <=? now then
      call (pn_listener_close (listener (app s))) ;;
      ret None
    else ret (Some 20000)
  else if wake_conn_time (app s) <=? now then
    wake_loop MAX_CONNECTIONS 0 ;;
    modify (set_app (with_wake_conn_time (to_int64 (now + 5000)))) ;;
    ret (Some 5000)
  else ret (Some 5000).

(** [return exit_code == 0;] *)
Definition exit_code_is_zero : M bool :=
  s <- get ;; ret (exit_code s =? 0).

Definition handle (e : pn_event_t) : M bool :=
  match event_type e with
  | PN_LISTENER_OPEN =>
      call (printf_listening (listener_port e)) ;;
      call fflush_stdout ;;
      exit_code_is_zero
  | PN_LISTENER_ACCEPT =>
      let l := event_listener e in
      c <- pn_raw_connection (new_raw_connection e) ;;
      cd <- make_conn_data c ;;
      let now := now_64 e in
      match cd with
      | Some _ =>
          modify (set_app (with_first_idle_time 0)) ;;
          modify (set_app (with_try_accept_time 0)) ;;
          s <- get ;;
          when (wake_conn_time (app s) <? now)
            (modify (set_app (with_wake_conn_time (to_int64 (now + 5000)))) ;;
             call (pn_proactor_set_timeout 5000)) ;;
          pn_raw_connection_set_context c cd ;;
          call (pn_listener_raw_accept l c)
      | None =>
          call printf_too_many_connections ;;
          call (pn_listener_raw_accept l c) ;;
          call (pn_raw_connection_close c)
      end ;;
      exit_code_is_zero
  | PN_LISTENER_CLOSE =>
      modify (set_app (with_listener NULL)) ;;
      check_condition_fatal e (condition e) ;;
      exit_code_is_zero
  | PN_PROACTOR_TIMEOUT =>
      timeout <- handle_timeout e ;;
      match timeout with
      | Some ms => call (pn_proactor_set_timeout ms)
      | None => ret tt
      end ;;
      exit_code_is_zero
  | PN_PROACTOR_INACTIVE => ret false
  | _ =>
      let c := event_raw_connection e in
      when (negb (is_null c)) (handle_receive e) ;;
      exit_code_is_zero
  end.

(** [run]: events are handled in the order the proactor delivers them
    until [handle] returns false.  The result tells whether [run] has
    returned ([true]) or is still waiting in [pn_proactor_wait] after the
    given events ([false]). *)
Fixpoint run (events : list pn_event_t) : M bool :=
  match events with
  | [] => ret false
  | e :: rest =>
      continue <- handle e ;;
      if continue then run rest else ret true
  end.

(** The state [main] starts [run] in: [app] zeroed but for the listener
    that [pn_listener()] returned, the globals as initialised. *)
Definition initial_state (l : pointer) : state :=
  mk_state (mk_app l 0 0 0 0 0)
           (replicate MAX_CONNECTIONS (mk_conn_data NULL 0 0 0))
           0 ∅.

(** [main]: the exit status once [run] has returned, [None] while the
    process is still waiting for events. *)
Definition main (l : pointer) (events : list pn_event_t)
    : outcome (option Z * list action) :=
  match run events (initial_state l) with
  | Ok (true, s, t) => Ok (Some (exit_code s), t)
  | Ok (false, _, t) => Ok (None, t)
  | Undefined u => Undefined u
  end.

(** ** What the loops compute

    Closed forms of the loops above, used to state what a handler did
    with the buffers and with the slot table. *)

(** The buffers of a batch that the two [for] loops visit: those before
    the first buffer whose [bytes] is null. *)
Fixpoint visited (buffs : list pn_raw_buffer_t) : list pn_raw_buffer_t :=
  match buffs with
  | [] => []
  | b :: rest => if is_null (buf_bytes b) then [] else b :: visited rest
  end.

(** The batches a [while] loop handles: those before the first empty
    one. *)
Fixpoint handled (batches : list taken_t) : list taken_t :=
  match batches with
  | [] => []
  | b :: rest => if (length (taken_buffers b) =? 0)%nat then [] else b :: handled rest
  end.

Definition delivered (buffs : list pn_raw_buffer_t) : list action :=
  map (fun b => fwrite_stdout (buf_bytes b) (buf_size b)) (visited buffs).

Definition freed (buffs : list pn_raw_buffer_t) : list action :=
  map (fun b => free (buf_bytes b)) (visited buffs).

(** Where a batch of read buffers goes. *)
Definition read_disposition (c : pointer) (b : taken_t) : list action :=
  if negb (write_closed b) then [pn_raw_connection_write_buffers c (taken_buffers b)]
  else if negb (read_closed b) then [pn_raw_connection_give_read_buffers c (taken_buffers b)]
  else freed (taken_buffers b).

(** Where a batch of written buffers goes. *)
Definition written_disposition (c : pointer) (b : taken_t) : list action :=
  if negb (read_closed b) then [pn_raw_connection_give_read_buffers c (taken_buffers b)]
  else freed (taken_buffers b).

Definition read_calls (c : pointer) (batches : list taken_t) : list action :=
  flat_map (fun b => delivered (taken_buffers b) ++ read_disposition c b) (handled batches).

Definition written_calls (c : pointer) (batches : list taken_t) : list action :=
  flat_map (written_disposition c) (handled batches).

(** [cd->bytes] after the first [for] loop over a batch. *)
Definition count_bytes (n : Z) (buffs : list pn_raw_buffer_t) : Z :=
  foldl (fun acc b => to_int (acc + buf_size b)) n (visited buffs).

(** The slot after one batch, and after all batches of a read event. *)
Definition count_batch (d : conn_data_t) (b : taken_t) : conn_data_t :=
  with_buffers (to_int (buffers d + Z.of_nat (length (taken_buffers b))))
    (with_bytes (count_bytes (bytes d) (taken_buffers b)) d).

Definition count_batches (d : conn_data_t) (batches : list taken_t) : conn_data_t :=
  foldl count_batch d (handled batches).

(** The connections of the bound slots, in slot order. *)
Definition live_connections (t : list conn_data_t) : list pointer :=
  filter (fun c => c ≠ NULL) (connection <$> t).

Definition bound_slots (s : state) : nat := length (live_connections (conn_data s)).

Definition all_bound (t : list conn_data_t) : Prop :=
  Forall (fun d => connection d ≠ NULL) t.

(** The slot table has its [MAX_CONNECTIONS] entries and every context
    points into it. *)
Definition table_ok (s : state) : Prop :=
  length (conn_data s) = MAX_CONNECTIONS ∧
  ∀ c i, contexts s !! c = Some i → (i < MAX_CONNECTIONS)%nat.

(** The events on which [handle] returns false when the exit code was 0
    before: the proactor is inactive, or a listener closed with its
    condition set. *)
Definition listener_error (e : pn_event_t) : bool :=
  bool_decide (event_type e = PN_LISTENER_CLOSE) && bool_decide (is_Some (condition e)).

Definition ends_run (e : pn_event_t) : bool :=
  bool_decide (event_type e = PN_PROACTOR_INACTIVE) || listener_error e.

(** What [check_condition] prints for the condition of the event. *)
Definition condition_report (e : pn_event_t) : list action :=
  match condition e with
  | Some (name, description) => [fprintf_stderr_condition (event_type e) name description]
  | None => []
  end.

(** The event types that [handle] passes on to [handle_receive]. *)
Definition to_handle_receive (t : pn_event_type_t) : bool :=
  match t with
  | PN_LISTENER_OPEN | PN_LISTENER_ACCEPT | PN_LISTENER_CLOSE
  | PN_PROACTOR_TIMEOUT | PN_PROACTOR_INACTIVE => false
  | _ => true
  end.

Definition is_listener_close (a : action) : bool :=
  match a with pn_listener_close _ => true | _ => false end.

Definition is_set_timeout (a : action) : bool :=
  match a with pn_proactor_set_timeout _ => true | _ => false end.

(** Calls that neither close the listener nor arm the timer. *)
Definition quiet (a : action) : Prop :=
  is_listener_close a = false ∧ is_set_timeout a = false.

(** A counter after one event: unchanged or incremented. *)
Definition counted (n n' : Z) : Prop := n' = n ∨ n' = to_int (n + 1).

(** The states [run] passes through, started by [main], while it has
    not returned. *)
Definition reachable (s : state) : Prop :=
  ∃ l events t, run events (initial_state l) = Ok (false, s, t).

(** ** The engine's side of listener and timer *)

(** Modelled from the spec: the proactor, which is not part of this
    program.  Of its state only two facts matter here: whether the
    listener still accepts, and whether the one timer it has is armed.
    The contract (sections 5 and 6 of the specification) is that the
    timer is armed by set-timer and fires once per arming, and that a
    listener that was closed delivers no more incoming-connection
    events. *)
Record engine := mk_engine {
  listener_open : bool;
  timer_armed : bool
}.

(** Modelled from the spec: what a call of the program does to the
    engine; close-listener closes the listener, set-timer arms the
    timer. *)
Definition engine_call (g : engine) (a : action) : engine :=
  match a with
  | pn_listener_close _ => mk_engine false (timer_armed g)
  | pn_proactor_set_timeout _ => mk_engine (listener_open g) true
  | _ => g
  end.

(** Modelled from the spec: the events the engine can deliver; an
    incoming connection only while the listener is open, a timer event
    only while the timer is armed. *)
Definition deliverable (g : engine) (e : pn_event_t) : bool :=
  match event_type e with
  | PN_LISTENER_ACCEPT => listener_open g
  | PN_PROACTOR_TIMEOUT => timer_armed g
  | _ => true
  end.

(** Modelled from the spec: firing the timer disarms it. *)
Definition deliver (g : engine) (e : pn_event_t) : engine :=
  match event_type e with
  | PN_PROACTOR_TIMEOUT => mk_engine (listener_open g) false
  | _ => g
  end.

(** The engine after it delivered [e] and the handler made the calls
    [t]. *)
Definition engine_after (g : engine) (e : pn_event_t) (t : list action) : engine :=
  foldl engine_call (deliver g e) t.

(** [events] is a sequence the engine can deliver to [run] from engine
    state [g] and program state [s]: each event is deliverable when its
    turn comes, and nothing follows an event on which [run] returns or
    the program fails. *)
Fixpoint engine_delivers (g : engine) (s : state) (events : list pn_event_t) : Prop :=
  match events with
  | [] => True
  | e :: rest =>
      deliverable g e = true ∧
      match handle e s with
      | Ok (true, s', t) => engine_delivers (engine_after g e t) s' rest
      | _ => rest = []
      end
  end.

(** ** Sample events *)

Definition accept_event (l c now : Z) : pn_event_t :=
  mk_event PN_LISTENER_ACCEPT NULL l None now c "" [] [].

Definition connection_event (t : pn_event_type_t) (c : pointer) : pn_event_t :=
  mk_event t c NULL None 0 0 "" [] [].

Definition connected_event (c : pointer) (mallocs : list pointer) : pn_event_t :=
  mk_event PN_RAW_CONNECTION_CONNECTED c NULL None 0 0 "" mallocs [].

Definition read_event (c : pointer) (now : Z) (batches : list taken_t) : pn_event_t :=
  mk_event PN_RAW_CONNECTION_READ c NULL None now 0 "" [] batches.

Definition disconnected_event (c : pointer) (cond : option (string * string)) : pn_event_t :=
  mk_event PN_RAW_CONNECTION_DISCONNECTED c NULL cond 0 0 "" [] [].

Definition timeout_event (now : Z) : pn_event_t :=
  mk_event PN_PROACTOR_TIMEOUT NULL NULL None now 0 "" [] [].

Definition listener_close_event (l : pointer) (cond : option (string * string)) : pn_event_t :=
  mk_event PN_LISTENER_CLOSE NULL l cond 0 0 "" [] [].

Definition inactive_event : pn_event_t :=
  mk_event PN_PROACTOR_INACTIVE NULL NULL None 0 0 "" [] [].

(** Four buffers as four successful calls of [malloc(1024)] return
    them. *)
Definition four_blocks (base : pointer) : list pointer :=
  [base; base + 1024; base + 2048; base + 3072].

(** Six connection attempts on listener 100: connections 1 to 5 get the
    five slots, connection 6 finds the table full. *)
Definition six_accepts : list pn_event_t :=
  map (fun c => accept_event 100 c 1000) [1; 2; 3; 4; 5; 6].

(** The six connections come up (the sixth has no slot), the rejected one
    is torn down, then the five others. *)
Definition six_connections_come_and_go : list pn_event_t :=
  six_accepts ++
  map (fun c => connected_event c (four_blocks (c * 65536))) [1; 2; 3; 4; 5; 6] ++
  map (fun c => disconnected_event c None) [6; 1; 2; 3; 4; 5].

(** The state with all five slots bound to live connections, as the
    first five of the six accepts and their connect events leave it. *)
Definition busy_state : state :=
  mk_state (mk_app 100 0 0 6000 5 0)
           [mk_conn_data 1 0 0 0; mk_conn_data 2 0 0 0; mk_conn_data 3 0 0 0;
            mk_conn_data 4 0 0 0; mk_conn_data 5 0 0 0]
           0
           (list_to_map [(1, 0%nat); (2, 1%nat); (3, 2%nat); (4, 3%nat); (5, 4%nat)]).

(** One connection receives four bytes, goes away, and its slot is
    given to the next connection. *)
Definition ping : taken_t :=
  mk_taken [mk_raw_buffer 0 65536 1024 4 0] false false.

Definition slot_used_once : list pn_event_t :=
  [accept_event 100 1 1000;
   connected_event 1 (four_blocks 65536);
   read_event 1 1500 [ping];
   disconnected_event 1 None].

Definition slot_used_twice : list pn_event_t :=
  slot_used_once ++ [accept_event 100 2 2000].

(** A batch whose first buffer has no memory behind it (its [malloc]
    failed) and whose second buffer holds four bytes. *)
Definition batch_with_hole : taken_t :=
  mk_taken [mk_raw_buffer 0 NULL 1024 0 0; mk_raw_buffer 0 66560 1024 4 0] false false.

Definition read_with_hole : list pn_event_t :=
  [accept_event 100 1 1000;
   connected_event 1 [NULL; 66560; 67584; 68608];
   read_event 1 1500 [batch_with_hole]].

(** A connection that ends with an error condition, then a clean
    shutdown. *)
Definition framing_error : option (string * string) :=
  Some ("amqp:connection:framing-error", "connection aborted").

Definition connection_error_run : list pn_event_t :=
  [accept_event 100 1 1000;
   connected_event 1 (four_blocks 65536);
   disconnected_event 1 framing_error;
   listener_close_event 100 None;
   inactive_event].

Definition listener_error_run : list pn_event_t :=
  [listener_close_event 100 (Some ("proton:io", "address in use"));
   inactive_event].

(** The second of the four calls of [malloc] fails. *)
Definition second_malloc_fails : list pn_event_t :=
  [accept_event 100 1 1000;
   connected_event 1 [65536; NULL; 67584; 68608]].

(** The service idle since time 30000, with its timer armed and its
    listener open. *)
Definition idle_state : state :=
  mk_state (mk_app 100 30000 0 6000 5 5)
           (replicate MAX_CONNECTIONS (mk_conn_data NULL 0 0 0))
           0 ∅.

Definition waiting_engine : engine := mk_engine true true.

(** ** Further vocabulary *)

(** Whether a value fits [int], and [int64_t]. *)
Definition in_int (x : Z) : bool := (- 2 ^ 31 <=? x) && (x <? 2 ^ 31).
Definition in_int64 (x : Z) : bool := (- 2 ^ 63 <=? x) && (x <? 2 ^ 63).

(** Whether handling [e] in state [s] evaluates a signed operation that
    overflows.  The signed operations of the program are
    [app->connects++] in the connected handler (inside [if (cd)]),
    [app->disconnects++] in the disconnected handler,
    [now + 5000] in the accept handler (a slot was found and
    [wake_conn_time < now]), and in the timer handler
    [connects - disconnects], then [first_idle_time + 20000] (idle,
    [first_idle_time] set) or [now + 5000] (not idle, deadline reached).
    [cd->bytes += size] and [cd->buffers += n] are computed in unsigned
    types and are not among them.  In the states in which the table has
    its entries and the contexts point into it, nothing else that is
    undefined comes before these operations in their handler. *)
Definition signed_overflow (e : pn_event_t) (s : state) : bool :=
  let a := app s in
  let now := now_64 e in
  let c := event_raw_connection e in
  match event_type e with
  | PN_LISTENER_ACCEPT =>
      match (n <- pn_raw_connection (new_raw_connection e) ;; make_conn_data n) s with
      | Ok (Some _, _, _) => (wake_conn_time a <? now) && negb (in_int64 (now + 5000))
      | _ => false
      end
  | PN_PROACTOR_TIMEOUT =>
      if negb (in_int (connects a - disconnects a)) then true
      else if connects a - disconnects a =? 0 then
        negb (first_idle_time a =? 0) && negb (in_int64 (first_idle_time a + 20000))
      else (wake_conn_time a <=? now) && negb (in_int64 (now + 5000))
  | PN_RAW_CONNECTION_CONNECTED =>
      negb (is_null c) && bool_decide (is_Some (contexts s !! c)) &&
      negb (in_int (connects a + 1))
  | PN_RAW_CONNECTION_DISCONNECTED =>
      negb (is_null c) && negb (in_int (disconnects a + 1))
  | _ => false
  end.

(** [handle] as the C standard reads it: undefined where a signed
    operation overflows, and as [handle] otherwise. *)
Definition handle_strict (e : pn_event_t) : M bool :=
  fun s => if signed_overflow e s then Undefined SignedOverflow else handle e s.

(** [run] over [handle_strict]. *)
Fixpoint run_strict (events : list pn_event_t) : M bool :=
  match events with
  | [] => ret false
  | e :: rest =>
      continue <- handle_strict e ;;
      if continue then run_strict rest else ret true
  end.

(** An incoming connection at the last millisecond an [int64_t] clock
    can show. *)
Definition accept_at_end_of_time : pn_event_t :=
  accept_event 100 1 (2 ^ 63 - 1).

(** The event type on which the program makes a given call.  This is
    the table the theorem on the origin of calls checks the handlers
    against. *)
Definition made_on (a : action) (ty : pn_event_type_t) : bool :=
  match a, ty with
  | printf_listening _, PN_LISTENER_OPEN
  | fflush_stdout, PN_LISTENER_OPEN
  | printf_too_many_connections, PN_LISTENER_ACCEPT
  | pn_listener_raw_accept _ _, PN_LISTENER_ACCEPT
  | pn_proactor_set_timeout _, PN_LISTENER_ACCEPT
  | pn_proactor_set_timeout _, PN_PROACTOR_TIMEOUT
  | printf_idle_detected _, PN_PROACTOR_TIMEOUT
  | pn_listener_close _, PN_PROACTOR_TIMEOUT
  | pn_raw_connection_wake _, PN_PROACTOR_TIMEOUT
  | printf_connected _, PN_RAW_CONNECTION_CONNECTED
  | printf_connected_not_connected, PN_RAW_CONNECTION_CONNECTED
  | printf_woken _, PN_RAW_CONNECTION_WAKE
  | printf_disconnected _ _ _, PN_RAW_CONNECTION_DISCONNECTED
  | printf_disconnected_not_connected, PN_RAW_CONNECTION_DISCONNECTED
  | fprintf_stderr_condition _ _ _, PN_RAW_CONNECTION_DISCONNECTED
  | fprintf_stderr_condition _ _ _, PN_LISTENER_CLOSE
  | fwrite_stdout _ _, PN_RAW_CONNECTION_READ
  | pn_raw_connection_write_buffers _ _, PN_RAW_CONNECTION_READ
  | free _, PN_RAW_CONNECTION_READ
  | free _, PN_RAW_CONNECTION_WRITTEN
  | pn_raw_connection_give_read_buffers _ _, PN_RAW_CONNECTION_CONNECTED
  | pn_raw_connection_give_read_buffers _ _, PN_RAW_CONNECTION_READ
  | pn_raw_connection_give_read_buffers _ _, PN_RAW_CONNECTION_WRITTEN
  | pn_raw_connection_close _, PN_LISTENER_ACCEPT
  | pn_raw_connection_close _, PN_LISTENER_CLOSE
  | pn_raw_connection_close _, PN_RAW_CONNECTION_CLOSED_WRITE
  | pn_raw_connection_close _, PN_RAW_CONNECTION_CLOSED_READ => true
  | _, _ => false
  end.

Definition is_raw_accept (a : action) : bool :=
  match a with pn_listener_raw_accept _ _ => true | _ => false end.

(** The number of buffers in the batches a read event handles, and the
    number of bytes its delivery loops count. *)
Definition buffers_taken (batches : list taken_t) : Z :=
  foldr (fun b n => Z.of_nat (length (taken_buffers b)) + n) 0 (handled batches).

Definition bytes_counted (batches : list taken_t) : Z :=
  foldr (fun b n => foldr (fun buf m => buf_size buf + m) 0 (visited (taken_buffers b)) + n)
        0 (handled batches).

(** The test of the timer handler that leads to [pn_listener_close]. *)
Definition shutdown_due (a : app_data_t) (now : Z) : bool :=
  (to_int (connects a - disconnects a) =? 0) &&
  negb (first_idle_time a =? 0) &&
  (to_int64 (first_idle_time a + 20000) <=? now).

(** The delay the timer handler chooses. *)
Definition chosen_timeout (a : app_data_t) : Z :=
  if to_int (connects a - disconnects a) =? 0 then 20000 else 5000.

Definition written_event (c : pointer) (batches : list taken_t) : pn_event_t :=
  mk_event PN_RAW_CONNECTION_WRITTEN c NULL None 0 0 "" [] batches.

(** Two batches of written buffers, the first taken while the read side
    is open, the second after it closed. *)
Definition written_batches : list taken_t :=
  [mk_taken [mk_raw_buffer 0 65536 1024 4 0; mk_raw_buffer 0 66560 1024 2 0] false false;
   mk_taken [mk_raw_buffer 0 67584 1024 1 0] true true].

(** Five connections came, the second one is gone: slot 1 is free, and
    the context of the old connection is still on record. *)
Definition slot_freed_state : state :=
  mk_state (mk_app 100 0 0 6000 5 1)
           [mk_conn_data 1 0 0 0; mk_conn_data NULL 0 0 0; mk_conn_data 3 0 0 0;
            mk_conn_data 4 0 0 0; mk_conn_data 5 0 0 0]
           0
           (list_to_map [(1, 0%nat); (2, 1%nat); (3, 2%nat); (4, 3%nat); (5, 4%nat)]).

(** Five connections came and went, and the timer fired at 30000 with
    nobody connected: the idle countdown runs.  The contexts of the old
    connections are still on record. *)
Definition drained_state : state :=
  mk_state (mk_app 100 30000 0 6000 5 5)
           (replicate MAX_CONNECTIONS (mk_conn_data NULL 0 0 0))
           0
           (list_to_map [(1, 0%nat); (2, 1%nat); (3, 2%nat); (4, 3%nat); (5, 4%nat)]).

(** * Proofs *)

(** ** Integers *)

Lemma to_int_id x : int_range x → to_int x = x.
Proof.
  unfold int_range, to_int, wrap. intros H.
  rewrite Z.mod_small; lia.
Qed.

Lemma to_int64_id x : int64_range x → to_int64 x = x.
Proof.
  unfold int64_range, to_int64, wrap. intros H.
  rewrite Z.mod_small; lia.
Qed.

Lemma to_int_in_range x : int_range (to_int x).
Proof.
  unfold int_range, to_int, wrap.
  pose proof (Z.mod_pos_bound (x + 2 ^ (32 - 1)) (2 ^ 32) ltac:(lia)). lia.
Qed.

Lemma to_int_sub_eq_0 a b :
  int_range a → int_range b → to_int (a - b) = 0 ↔ a = b.
Proof.
  unfold int_range, to_int, wrap. change (32 - 1) with 31.
  intros Ha Hb. split.
  - intros H.
    assert (Hm : (a - b + 2 ^ 31) mod 2 ^ 32 = 2 ^ 31) by lia.
    destruct (Z_lt_le_dec (a - b) (- 2 ^ 31)) as [Hlt | Hge].
    + replace (a - b + 2 ^ 31) with ((a - b + 2 ^ 31 + 2 ^ 32) + (-1) * 2 ^ 32) in Hm by lia.
      rewrite Z.mod_add in Hm by lia. rewrite Z.mod_small in Hm; lia.
    + destruct (Z_lt_le_dec (a - b) (2 ^ 31)) as [Hlt' | Hge'].
      * rewrite Z.mod_small in Hm; lia.
      * replace (a - b + 2 ^ 31) with ((a - b + 2 ^ 31 - 2 ^ 32) + 1 * 2 ^ 32) in Hm by lia.
        rewrite Z.mod_add in Hm by lia. rewrite Z.mod_small in Hm; lia.
  - intros ->. rewrite Z.sub_diag. reflexivity.
Qed.

(** ** The monad *)

Lemma bind_Ok {A B} (m : M A) (k : A → M B) s b s2 t :
  bind m k s = Ok (b, s2, t) →
  ∃ a s1 t1 t2, m s = Ok (a, s1, t1) ∧ k a s1 = Ok (b, s2, t2) ∧ t = t1 ++ t2.
Proof.
  unfold bind. destruct (m s) as [[[a s1] t1] | u]; [| discriminate].
  destruct (k a s1) as [[[b' s2'] t2] | u] eqn:Hk; [| discriminate].
  intros [= <- <- <-]. by exists a, s1, t1, t2.
Qed.

Lemma bind_eq {A B} (m : M A) (k : A → M B) s a s1 t1 :
  m s = Ok (a, s1, t1) →
  bind m k s = match k a s1 with
               | Ok (b, s2, t2) => Ok (b, s2, t1 ++ t2)
               | Undefined u => Undefined u
               end.
Proof. unfold bind. by intros ->. Qed.

Lemma bind_undefined {A B} (m : M A) (k : A → M B) s u :
  m s = Undefined u → bind m k s = Undefined u.
Proof. unfold bind. by intros ->. Qed.

(** ** State updates *)

Lemma set_conn_data_id s (f : list conn_data_t → list conn_data_t) :
  f (conn_data s) = conn_data s → set_conn_data f s = s.
Proof. destruct s; unfold set_conn_data; simpl. by intros ->. Qed.

Lemma set_conn_data_twice s (f g : list conn_data_t → list conn_data_t) :
  set_conn_data g (set_conn_data f s) = set_conn_data (fun t => g (f t)) s.
Proof. reflexivity. Qed.

Lemma with_bytes_id d : with_bytes (bytes d) d = d.
Proof. by destruct d. Qed.

Lemma store_eq i f s d :
  conn_data s !! i = Some d →
  store i f s = Ok (tt, set_conn_data (fun t => <[i := f d]> t) s, []).
Proof. intros H. unfold store, bind, load. rewrite H. reflexivity. Qed.

Lemma store_undefined i f s :
  conn_data s !! i = None → store i f s = Undefined OutOfBounds.
Proof. intros H. unfold store, bind, load. by rewrite H. Qed.

Lemma lookup_set_slot s i (x d : conn_data_t) :
  conn_data s !! i = Some d →
  conn_data (set_conn_data (fun t => <[i := x]> t) s) !! i = Some x.
Proof.
  intros H. simpl. apply list_lookup_insert_eq. by eapply lookup_lt_Some.
Qed.

(** ** The loops *)

Lemma free_loop_eq buffs s : free_loop buffs s = Ok (tt, s, freed buffs).
Proof.
  unfold freed. induction buffs as [| b rest IH]; simpl; [done |].
  destruct (is_null (buf_bytes b)); [done |].
  unfold bind, call. rewrite IH. reflexivity.
Qed.

Lemma recv_loop_eq buffs : ∀ cd s d,
  conn_data s !! cd = Some d →
  recv_loop cd buffs s =
    Ok (tt,
        set_conn_data (fun t => <[cd := with_bytes (count_bytes (bytes d) buffs) d]> t) s,
        delivered buffs).
Proof.
  unfold delivered, count_bytes.
  induction buffs as [| b rest IH]; intros cd s d Hd; simpl.
  - unfold ret. rewrite set_conn_data_id; [done |].
    rewrite with_bytes_id. by apply list_insert_id.
  - destruct (is_null (buf_bytes b)); simpl.
    + unfold ret. rewrite set_conn_data_id; [done |].
      rewrite with_bytes_id. by apply list_insert_id.
    + erewrite (bind_eq (store _ _)) by (by apply store_eq).
      unfold recv_message.
      erewrite (bind_eq (call _)) by reflexivity.
      erewrite IH by (by eapply lookup_set_slot).
      simpl. rewrite set_conn_data_twice. do 3 f_equal.
      unfold set_conn_data. f_equal. apply list_insert_insert_eq.
Qed.

Lemma read_disposition_eq c b s :
  (if negb (write_closed b) then call (pn_raw_connection_write_buffers c (taken_buffers b))
   else if negb (read_closed b)
        then call (pn_raw_connection_give_read_buffers c (taken_buffers b))
        else free_loop (taken_buffers b)) s
  = Ok (tt, s, read_disposition c b).
Proof.
  unfold read_disposition.
  destruct (write_closed b), (read_closed b); simpl; try done; apply free_loop_eq.
Qed.

Lemma written_disposition_eq c b s :
  (if negb (read_closed b)
   then call (pn_raw_connection_give_read_buffers c (taken_buffers b))
   else free_loop (taken_buffers b)) s
  = Ok (tt, s, written_disposition c b).
Proof.
  unfold written_disposition.
  destruct (read_closed b); simpl; try done; apply free_loop_eq.
Qed.

Lemma read_loop_eq c batches : ∀ cd s d,
  conn_data s !! cd = Some d →
  read_loop cd c batches s =
    Ok (tt, set_conn_data (fun t => <[cd := count_batches d batches]> t) s,
        read_calls c batches).
Proof.
  unfold read_calls, count_batches.
  induction batches as [| b rest IH]; intros cd s d Hd; simpl.
  - unfold ret. rewrite set_conn_data_id; [done |]. by apply list_insert_id.
  - destruct (length (taken_buffers b) =? 0)%nat; simpl.
    + unfold ret. rewrite set_conn_data_id; [done |]. by apply list_insert_id.
    + erewrite (bind_eq (recv_loop _ _)) by (by apply recv_loop_eq).
      erewrite (bind_eq (store _ _)) by (apply store_eq; by eapply lookup_set_slot).
      rewrite set_conn_data_twice.
      erewrite bind_eq by apply read_disposition_eq.
      erewrite IH; cycle 1.
      { simpl. rewrite list_insert_insert_eq. apply list_lookup_insert_eq.
        by eapply lookup_lt_Some. }
      simpl. rewrite set_conn_data_twice. rewrite <- app_assoc. do 2 f_equal.
      unfold set_conn_data. f_equal. by rewrite !list_insert_insert_eq.
Qed.

Lemma written_loop_eq c batches s :
  written_loop c batches s = Ok (tt, s, written_calls c batches).
Proof.
  unfold written_calls.
  induction batches as [| b rest IH]; simpl; [done |].
  destruct (length (taken_buffers b) =? 0)%nat; simpl; [done |].
  erewrite bind_eq by apply written_disposition_eq.
  rewrite IH. reflexivity.
Qed.

(** The wake loop leaves the state alone and wakes the connections of
    the bound slots among the [k] entries from index [i]. *)
Lemma wake_loop_eq k : ∀ i s,
  (i + k ≤ length (conn_data s))%nat →
  wake_loop k i s =
    Ok (tt, s, pn_raw_connection_wake <$> live_connections (take k (drop i (conn_data s)))).
Proof.
  unfold live_connections.
  induction k as [| k IH]; intros i s Hlen; simpl.
  - reflexivity.
  - destruct (lookup_lt_is_Some_2 (conn_data s) i) as [d Hd]; [lia |].
    unfold load at 1. unfold bind at 1. rewrite Hd.
    rewrite (drop_S _ d _ Hd). simpl.
    rewrite filter_cons.
    unfold is_null. destruct (Z.eqb_spec (connection d) NULL) as [Heq | Hne]; simpl.
    + unfold bind, ret. rewrite IH by lia.
      destruct (decide (connection d ≠ NULL)); [done |]. reflexivity.
    + unfold bind, call. rewrite IH by lia.
      destruct (decide (connection d ≠ NULL)); [| done]. reflexivity.
Qed.

Lemma live_connections_length_le t :
  (length (live_connections t) ≤ length t)%nat.
Proof.
  unfold live_connections.
  etrans; [apply length_filter |]. by rewrite length_fmap.
Qed.

(** [make_conn_data] when every slot from [i] on is bound. *)
Lemma make_conn_data_loop_full c k : ∀ i s,
  (i + k ≤ length (conn_data s))%nat →
  all_bound (drop i (conn_data s)) →
  make_conn_data_loop k i c s = Ok (None, s, []).
Proof.
  unfold all_bound.
  induction k as [| k IH]; intros i s Hlen Hall; simpl; [done |].
  destruct (lookup_lt_is_Some_2 (conn_data s) i) as [d Hd]; [lia |].
  unfold load at 1. unfold bind at 1. rewrite Hd.
  rewrite (drop_S _ d _ Hd) in Hall. apply Forall_cons in Hall as [Hne Hall].
  unfold is_null. destruct (Z.eqb_spec (connection d) NULL) as [Heq | _]; [done |].
  rewrite IH; [done | lia | done].
Qed.

(** [make_conn_data] when slot [j] is the first free one from [i] on. *)
Lemma make_conn_data_loop_free c k : ∀ i s j d,
  (i ≤ j < i + k)%nat →
  conn_data s !! j = Some d →
  connection d = NULL →
  all_bound (take (j - i) (drop i (conn_data s))) →
  make_conn_data_loop k i c s =
    Ok (Some j, set_conn_data (fun t => <[j := with_connection c d]> t) s, []).
Proof.
  unfold all_bound.
  induction k as [| k IH]; intros i s j d Hj Hd Hfree Hbound; simpl; [lia |].
  destruct (decide (i = j)) as [-> | Hne].
  - unfold load at 1. unfold bind at 1. rewrite Hd.
    unfold is_null. rewrite Hfree. simpl.
    erewrite bind_eq by (by apply store_eq). reflexivity.
  - destruct (lookup_lt_is_Some_2 (conn_data s) i) as [d' Hd'].
    { apply lookup_lt_Some in Hd. lia. }
    unfold load at 1. unfold bind at 1. rewrite Hd'.
    rewrite (drop_S _ d' _ Hd') in Hbound.
    replace (j - i)%nat with (S (j - S i)) in Hbound by lia.
    simpl in Hbound. apply Forall_cons in Hbound as [Hb Hbound].
    unfold is_null. destruct (Z.eqb_spec (connection d') NULL) as [Heq | _]; [done |].
    rewrite (IH (S i) s j d); [done | lia | done | done | done].
Qed.

(** A table is full, or has a first free slot. *)
Lemma first_free_slot (t : list conn_data_t) :
  all_bound t ∨
  ∃ j d, t !! j = Some d ∧ connection d = NULL ∧ all_bound (take j t).
Proof.
  unfold all_bound. induction t as [| d t IH]; [left; constructor |].
  destruct (decide (connection d = NULL)) as [Heq | Hne].
  - right. exists 0%nat, d. simpl. repeat split; [done | constructor].
  - destruct IH as [Hall | (j & d' & Hj & Hfree & Hall)].
    + left. by constructor.
    + right. exists (S j), d'. simpl. repeat split; [done | done | by constructor].
Qed.

(** ** [make_conn_data] on the whole table *)

Lemma make_conn_data_full c s :
  length (conn_data s) = MAX_CONNECTIONS →
  all_bound (conn_data s) →
  make_conn_data c s = Ok (None, s, []).
Proof.
  intros Hlen Hall. apply make_conn_data_loop_full; [simpl; lia | by rewrite drop_0].
Qed.

Lemma make_conn_data_free c s j d :
  length (conn_data s) = MAX_CONNECTIONS →
  conn_data s !! j = Some d →
  connection d = NULL →
  all_bound (take j (conn_data s)) →
  make_conn_data c s =
    Ok (Some j, set_conn_data (fun t => <[j := with_connection c d]> t) s, []).
Proof.
  intros Hlen Hd Hfree Hall. apply make_conn_data_loop_free; try done.
  - apply lookup_lt_Some in Hd. simpl. lia.
  - by rewrite drop_0, Nat.sub_0_r.
Qed.

(** ** [handle_receive], case by case *)

Section receive.
Variables (e : pn_event_t) (s : state).
Let c := event_raw_connection e.

(* Enter the case of [Ht] and read the context [Hc] of the connection. *)
Ltac with_context Ht Hc :=
  unfold handle_receive; rewrite Ht;
  unfold pn_raw_connection_get_context; fold c;
  unfold bind at 1; rewrite Hc.

Lemma receive_connected_bound i :
  event_type e = PN_RAW_CONNECTION_CONNECTED →
  contexts s !! c = Some i →
  handle_receive e s =
    Ok (tt, set_app (fun a => with_connects (to_int (connects a + 1)) a) s,
        [printf_connected (Z.of_nat i);
         pn_raw_connection_give_read_buffers c
           (fill_read_buffers READ_BUFFERS (malloc_results e)
              (replicate READ_BUFFERS (mk_raw_buffer 0 NULL 0 0 0)))]).
Proof.
  intros Ht Hc. with_context Ht Hc. reflexivity.
Qed.

Lemma receive_connected_unbound :
  event_type e = PN_RAW_CONNECTION_CONNECTED →
  contexts s !! c = None →
  handle_receive e s = Ok (tt, s, [printf_connected_not_connected]).
Proof.
  intros Ht Hc. with_context Ht Hc. reflexivity.
Qed.

Lemma receive_wake_bound i :
  event_type e = PN_RAW_CONNECTION_WAKE →
  contexts s !! c = Some i →
  handle_receive e s = Ok (tt, s, [printf_woken (Z.of_nat i)]).
Proof.
  intros Ht Hc. with_context Ht Hc. reflexivity.
Qed.

Lemma receive_wake_unbound :
  event_type e = PN_RAW_CONNECTION_WAKE →
  contexts s !! c = None →
  handle_receive e s = Undefined NullPointerDifference.
Proof.
  intros Ht Hc. with_context Ht Hc. reflexivity.
Qed.

Lemma receive_disconnected_bound i d :
  event_type e = PN_RAW_CONNECTION_DISCONNECTED →
  contexts s !! c = Some i →
  conn_data s !! i = Some d →
  handle_receive e s =
    Ok (tt,
        set_conn_data (fun t => <[i := with_connection NULL d]> t)
          (set_app (fun a => with_disconnects (to_int (disconnects a + 1)) a) s),
        printf_disconnected (Z.of_nat i) (bytes d) (buffers d) :: condition_report e).
Proof.
  intros Ht Hc Hd. with_context Ht Hc.
  unfold condition_report, check_condition, free_conn_data, store, bind, load, call, modify, ret.
  rewrite Hd. destruct (condition e) as [[n ds] |]; simpl; rewrite Hd; reflexivity.
Qed.

Lemma receive_disconnected_unbound :
  event_type e = PN_RAW_CONNECTION_DISCONNECTED →
  contexts s !! c = None →
  handle_receive e s =
    Ok (tt, set_app (fun a => with_disconnects (to_int (disconnects a + 1)) a) s,
        printf_disconnected_not_connected :: condition_report e).
Proof.
  intros Ht Hc. with_context Ht Hc.
  unfold condition_report, check_condition, free_conn_data, bind, call, modify, ret.
  destruct (condition e) as [[n ds] |]; reflexivity.
Qed.

Lemma receive_disconnected_out_of_bounds i :
  event_type e = PN_RAW_CONNECTION_DISCONNECTED →
  contexts s !! c = Some i →
  conn_data s !! i = None →
  handle_receive e s = Undefined OutOfBounds.
Proof.
  intros Ht Hc Hd. with_context Ht Hc.
  unfold bind, load. rewrite Hd. reflexivity.
Qed.

Lemma receive_read_bound i d :
  event_type e = PN_RAW_CONNECTION_READ →
  contexts s !! c = Some i →
  conn_data s !! i = Some d →
  handle_receive e s =
    Ok (tt,
        set_conn_data
          (fun t => <[i := count_batches (with_last_recv_time (now_64 e) d) (taken e)]> t) s,
        read_calls c (taken e)).
Proof.
  intros Ht Hc Hd. unfold handle_receive. rewrite Ht.
  unfold pn_raw_connection_get_context. fold c.
  unfold bind at 1. rewrite Hc. unfold deref.
  unfold bind at 1. unfold ret at 1.
  erewrite bind_eq by (by apply store_eq).
  erewrite read_loop_eq by (by eapply lookup_set_slot).
  simpl. rewrite set_conn_data_twice. do 3 f_equal.
  unfold set_conn_data. f_equal. apply list_insert_insert_eq.
Qed.

Lemma receive_read_unbound :
  event_type e = PN_RAW_CONNECTION_READ →
  contexts s !! c = None →
  handle_receive e s = Undefined NullDereference.
Proof.
  intros Ht Hc. with_context Ht Hc. reflexivity.
Qed.

Lemma receive_read_out_of_bounds i :
  event_type e = PN_RAW_CONNECTION_READ →
  contexts s !! c = Some i →
  conn_data s !! i = None →
  handle_receive e s = Undefined OutOfBounds.
Proof.
  intros Ht Hc Hd. unfold handle_receive. rewrite Ht.
  unfold pn_raw_connection_get_context. fold c.
  unfold bind at 1. rewrite Hc. unfold deref.
  unfold bind at 1. unfold ret at 1.
  by rewrite (bind_undefined _ _ _ OutOfBounds) by (by apply store_undefined).
Qed.

Lemma receive_closed :
  event_type e = PN_RAW_CONNECTION_CLOSED_WRITE ∨
  event_type e = PN_RAW_CONNECTION_CLOSED_READ →
  handle_receive e s = Ok (tt, s, [pn_raw_connection_close c]).
Proof. unfold handle_receive. by intros [-> | ->]. Qed.

Lemma receive_written :
  event_type e = PN_RAW_CONNECTION_WRITTEN →
  handle_receive e s = Ok (tt, s, written_calls c (taken e)).
Proof. unfold handle_receive. intros ->. apply written_loop_eq. Qed.

End receive.

(** ** What every handler leaves alone *)

Lemma Forall_quiet_fmap {A} (f : A → action) (l : list A) :
  (∀ x, quiet (f x)) → Forall quiet (map f l).
Proof. intros Hf. induction l; simpl; constructor; auto. Qed.

Lemma quiet_freed buffs : Forall quiet (freed buffs).
Proof. by apply Forall_quiet_fmap. Qed.

Lemma quiet_read_calls c batches : Forall quiet (read_calls c batches).
Proof.
  unfold read_calls. induction (handled batches) as [| b l IH]; simpl; [constructor |].
  rewrite !Forall_app. split_and!; [by apply Forall_quiet_fmap | | done].
  unfold read_disposition.
  destruct (write_closed b), (read_closed b); simpl;
    try apply quiet_freed; by repeat constructor.
Qed.

Lemma quiet_written_calls c batches : Forall quiet (written_calls c batches).
Proof.
  unfold written_calls. induction (handled batches) as [| b l IH]; simpl; [constructor |].
  rewrite Forall_app. split; [| done].
  unfold written_disposition.
  destruct (read_closed b); simpl; try apply quiet_freed; by repeat constructor.
Qed.

Lemma quiet_condition_report e : Forall quiet (condition_report e).
Proof.
  unfold condition_report. destruct (condition e) as [[n d] |]; by repeat constructor.
Qed.

Create HintDb quiet.
#[local] Hint Resolve quiet_freed quiet_read_calls quiet_written_calls
  quiet_condition_report : quiet.
#[local] Hint Extern 1 (quiet _) => (split; reflexivity) : quiet.
#[local] Hint Constructors Forall : quiet.

Lemma handle_receive_frame e s s' t :
  handle_receive e s = Ok (tt, s', t) →
  length (conn_data s') = length (conn_data s) ∧ contexts s' = contexts s ∧
  exit_code s' = exit_code s ∧ listener (app s') = listener (app s) ∧
  counted (connects (app s)) (connects (app s')) ∧
  counted (disconnects (app s)) (disconnects (app s')) ∧
  Forall quiet t.
Proof.
  intros H. unfold counted.
  destruct (contexts s !! event_raw_connection e) as [i |] eqn:Hc;
    [destruct (conn_data s !! i) as [d |] eqn:Hd |];
    destruct (event_type e) eqn:Ht;
    first
      [ rewrite (receive_connected_bound _ _ _ Ht Hc) in H
      | rewrite (receive_connected_unbound _ _ Ht Hc) in H
      | rewrite (receive_wake_bound _ _ _ Ht Hc) in H
      | rewrite (receive_wake_unbound _ _ Ht Hc) in H
      | rewrite (receive_disconnected_bound _ _ _ _ Ht Hc Hd) in H
      | rewrite (receive_disconnected_unbound _ _ Ht Hc) in H
      | rewrite (receive_disconnected_out_of_bounds _ _ _ Ht Hc Hd) in H
      | rewrite (receive_read_bound _ _ _ _ Ht Hc Hd) in H
      | rewrite (receive_read_unbound _ _ Ht Hc) in H
      | rewrite (receive_read_out_of_bounds _ _ _ Ht Hc Hd) in H
      | rewrite (receive_closed _ _ (or_introl Ht)) in H
      | rewrite (receive_closed _ _ (or_intror Ht)) in H
      | rewrite (receive_written _ _ Ht) in H
      | (unfold handle_receive in H; rewrite Ht in H; unfold ret in H) ];
    try discriminate; injection H as <- <-; simpl;
    rewrite ?length_insert; split_and!; try done;
    try (by left); try (by right); auto with quiet.
Qed.

Lemma load_Ok i s d s' t :
  load i s = Ok (d, s', t) → conn_data s !! i = Some d ∧ s' = s ∧ t = [].
Proof. unfold load. destruct (conn_data s !! i); [| done]. by intros [= -> -> <-]. Qed.

Lemma make_conn_data_loop_frame c k : ∀ i s r s' t,
  make_conn_data_loop k i c s = Ok (r, s', t) →
  length (conn_data s') = length (conn_data s) ∧ contexts s' = contexts s ∧
  exit_code s' = exit_code s ∧ app s' = app s ∧ t = [] ∧
  ∀ j, r = Some j → (j < length (conn_data s))%nat.
Proof.
  induction k as [| k IH]; intros i s r s' t H; simpl in H.
  - injection H as <- <- <-. by split_and!.
  - apply bind_Ok in H as (d & s1 & t1 & t2 & Hl & H & ->).
    apply load_Ok in Hl as (Hd & -> & ->).
    destruct (is_null (connection d)).
    + erewrite bind_eq in H by (by apply store_eq).
      injection H as <- <- <-. simpl. rewrite length_insert.
      split_and!; try done. intros j [= <-]. by eapply lookup_lt_Some.
    + by apply IH in H.
Qed.

Lemma wake_loop_frame k : ∀ i s r s' t,
  wake_loop k i s = Ok (r, s', t) → s' = s ∧ Forall quiet t.
Proof.
  induction k as [| k IH]; intros i s r s' t H; simpl in H.
  - injection H as <- <- <-. by split.
  - apply bind_Ok in H as (d & s1 & t1 & t2 & Hl & H & ->).
    apply load_Ok in Hl as (Hd & -> & ->).
    apply bind_Ok in H as ([] & s2 & t3 & t4 & Hw & H & ->).
    apply IH in H as [-> Hq].
    destruct (is_null (connection d)); simpl in Hw; injection Hw as <- <-;
      split; try done; by repeat constructor.
Qed.

(** ** [handle], case by case *)

Lemma handle_default e s :
  to_handle_receive (event_type e) = true →
  handle e s =
    (when (negb (is_null (event_raw_connection e))) (handle_receive e) ;;
     exit_code_is_zero) s.
Proof. unfold handle. by destruct (event_type e). Qed.

Lemma handle_no_connection e s :
  to_handle_receive (event_type e) = true →
  event_raw_connection e = NULL →
  handle e s = Ok (exit_code s =? 0, s, []).
Proof. intros Ht Hc. rewrite handle_default by done. by rewrite Hc. Qed.

Lemma is_null_false p : p ≠ NULL → is_null p = false.
Proof. unfold is_null. by intros ?%Z.eqb_neq. Qed.

Lemma handle_receive_Ok e s s' t :
  to_handle_receive (event_type e) = true →
  event_raw_connection e ≠ NULL →
  handle_receive e s = Ok (tt, s', t) →
  handle e s = Ok (exit_code s' =? 0, s', t).
Proof.
  intros Ht Hc H. rewrite handle_default by done.
  rewrite (is_null_false _ Hc). simpl.
  erewrite bind_eq by exact H. simpl. by rewrite app_nil_r.
Qed.

Lemma handle_receive_Undefined e s u :
  to_handle_receive (event_type e) = true →
  event_raw_connection e ≠ NULL →
  handle_receive e s = Undefined u →
  handle e s = Undefined u.
Proof.
  intros Ht Hc H. rewrite handle_default by done.
  rewrite (is_null_false _ Hc). simpl. by apply bind_undefined.
Qed.

Lemma handle_listener_open e s :
  event_type e = PN_LISTENER_OPEN →
  handle e s = Ok (exit_code s =? 0, s, [printf_listening (listener_port e); fflush_stdout]).
Proof. unfold handle. by intros ->. Qed.

Lemma handle_inactive e s :
  event_type e = PN_PROACTOR_INACTIVE → handle e s = Ok (false, s, []).
Proof. unfold handle. by intros ->. Qed.

(** A listener that closed without a condition: the handle is cleared. *)
Lemma handle_listener_close_clean e s :
  event_type e = PN_LISTENER_CLOSE →
  condition e = None →
  handle e s = Ok (exit_code s =? 0, set_app (with_listener NULL) s, []).
Proof. unfold handle, check_condition_fatal. by intros -> ->. Qed.

(** A listener that closed with a condition: the condition is printed,
    the connection of the event (if any) is closed, the exit code is set
    and [handle] returns false. *)
Lemma handle_listener_close_error e s name description :
  event_type e = PN_LISTENER_CLOSE →
  condition e = Some (name, description) →
  handle e s =
    Ok (false, set_exit_code 1 (set_app (with_listener NULL) s),
        fprintf_stderr_condition PN_LISTENER_CLOSE name description ::
        (if is_null (event_raw_connection e) then []
         else [pn_raw_connection_close (event_raw_connection e)])).
Proof.
  unfold handle, check_condition_fatal, check_condition, close_all.
  intros Ht ->. rewrite !Ht.
  destruct (is_null (event_raw_connection e)); reflexivity.
Qed.

(** An incoming connection when the table is full. *)
Lemma handle_accept_full e s :
  event_type e = PN_LISTENER_ACCEPT →
  length (conn_data s) = MAX_CONNECTIONS →
  all_bound (conn_data s) →
  handle e s =
    Ok (exit_code s =? 0,
        set_contexts (delete (new_raw_connection e)) s,
        [printf_too_many_connections;
         pn_listener_raw_accept (event_listener e) (new_raw_connection e);
         pn_raw_connection_close (new_raw_connection e)]).
Proof.
  intros Ht Hlen Hall. unfold handle. rewrite Ht.
  unfold pn_raw_connection.
  unfold bind at 1. unfold bind at 1. unfold modify at 1. unfold ret at 1.
  erewrite bind_eq by (by apply make_conn_data_full). reflexivity.
Qed.

(** An incoming connection when slot [j] is the first free one. *)
Lemma handle_accept_free e s j d :
  event_type e = PN_LISTENER_ACCEPT →
  length (conn_data s) = MAX_CONNECTIONS →
  conn_data s !! j = Some d →
  connection d = NULL →
  all_bound (take j (conn_data s)) →
  let c := new_raw_connection e in
  let armed := wake_conn_time (app s) <? now_64 e in
  handle e s =
    Ok (exit_code s =? 0,
        mk_state
          (mk_app (listener (app s)) 0 0
             (if armed then to_int64 (now_64 e + 5000) else wake_conn_time (app s))
             (connects (app s)) (disconnects (app s)))
          (<[j := with_connection c d]> (conn_data s))
          (exit_code s)
          (<[c := j]> (delete c (contexts s))),
        (if armed then [pn_proactor_set_timeout 5000] else []) ++
        [pn_listener_raw_accept (event_listener e) c]).
Proof.
  intros Ht Hlen Hd Hfree Hall c armed. unfold handle. rewrite Ht.
  unfold pn_raw_connection.
  unfold bind at 1. unfold bind at 1. unfold modify at 1. unfold ret at 1.
  erewrite bind_eq by (by apply make_conn_data_free).
  unfold bind, modify, get, when, call, ret, exit_code_is_zero,
    pn_raw_connection_set_context. simpl.
  subst armed. destruct (wake_conn_time (app s) <? now_64 e); reflexivity.
Qed.

(** The timer fired. *)
Section timeout.
Variables (e : pn_event_t) (s : state).
Hypothesis Ht : event_type e = PN_PROACTOR_TIMEOUT.
Let now := now_64 e.
Let a := app s.

(* Enter the case and read the state. *)
Ltac enter_timeout :=
  unfold handle; rewrite Ht;
  unfold handle_timeout, bind at 1, bind at 1, get; fold a; fold now.

Lemma handle_timeout_idle_start :
  to_int (connects a - disconnects a) = 0 →
  first_idle_time a = 0 →
  handle e s =
    Ok (exit_code s =? 0, set_app (with_first_idle_time now) s,
        [printf_idle_detected 20000; pn_proactor_set_timeout 20000]).
Proof.
  intros H0 H1. enter_timeout.
  rewrite H0, H1. reflexivity.
Qed.

Lemma handle_timeout_idle_shutdown :
  to_int (connects a - disconnects a) = 0 →
  first_idle_time a ≠ 0 →
  to_int64 (first_idle_time a + 20000) <= now →
  handle e s = Ok (exit_code s =? 0, s, [pn_listener_close (listener a)]).
Proof.
  intros H0 H1 H2. enter_timeout.
  rewrite H0. apply Z.eqb_neq in H1. apply Z.leb_le in H2.
  rewrite H1, H2. reflexivity.
Qed.

Lemma handle_timeout_idle_wait :
  to_int (connects a - disconnects a) = 0 →
  first_idle_time a ≠ 0 →
  now < to_int64 (first_idle_time a + 20000) →
  handle e s = Ok (exit_code s =? 0, s, [pn_proactor_set_timeout 20000]).
Proof.
  intros H0 H1 H2. enter_timeout.
  rewrite H0. apply Z.eqb_neq in H1. apply Z.leb_gt in H2.
  rewrite H1, H2. reflexivity.
Qed.

Lemma handle_timeout_sweep :
  to_int (connects a - disconnects a) ≠ 0 →
  wake_conn_time a <= now →
  length (conn_data s) = MAX_CONNECTIONS →
  handle e s =
    Ok (exit_code s =? 0,
        set_app (with_wake_conn_time (to_int64 (now + 5000))) s,
        (pn_raw_connection_wake <$> live_connections (conn_data s)) ++
        [pn_proactor_set_timeout 5000]).
Proof.
  intros H0 H1 Hlen. enter_timeout.
  apply Z.eqb_neq in H0. apply Z.leb_le in H1. rewrite H0, H1.
  erewrite bind_eq by (apply wake_loop_eq; simpl; lia).
  rewrite drop_0, <- Hlen, firstn_all.
  unfold bind, modify, ret, call, exit_code_is_zero, get. simpl.
  by rewrite app_nil_r.
Qed.

Lemma handle_timeout_active :
  to_int (connects a - disconnects a) ≠ 0 →
  now < wake_conn_time a →
  handle e s = Ok (exit_code s =? 0, s, [pn_proactor_set_timeout 5000]).
Proof.
  intros H0 H1. enter_timeout.
  apply Z.eqb_neq in H0. apply Z.leb_gt in H1. rewrite H0, H1. reflexivity.
Qed.

End timeout.

Lemma handle_timeout_frame e s r s' t :
  handle_timeout e s = Ok (r, s', t) →
  conn_data s' = conn_data s ∧ contexts s' = contexts s ∧ exit_code s' = exit_code s ∧
  connects (app s') = connects (app s) ∧ disconnects (app s') = disconnects (app s).
Proof.
  unfold handle_timeout, bind at 1, get.
  destruct (to_int (connects (app s) - disconnects (app s)) =? 0).
  - destruct (first_idle_time (app s) =? 0);
      [| destruct (to_int64 (first_idle_time (app s) + 20000) <=? now_64 e)];
      intros H; by injection H as <- <- <-.
  - destruct (wake_conn_time (app s) <=? now_64 e).
    + destruct (wake_loop MAX_CONNECTIONS 0 s) as [[[[] s1] t1] | u] eqn:Hw;
        [| by rewrite (bind_undefined _ _ _ u Hw)].
      erewrite bind_eq by exact Hw.
      apply wake_loop_frame in Hw as [-> _].
      intros H; by injection H as <- <- <-.
    + intros H; by injection H as <- <- <-.
Qed.

(** What any handled event leaves in place. *)
Lemma handle_frame e s b s' t :
  handle e s = Ok (b, s', t) →
  length (conn_data s') = length (conn_data s) ∧
  (∀ c i, contexts s' !! c = Some i →
          contexts s !! c = Some i ∨ (i < length (conn_data s))%nat) ∧
  exit_code s' = (if listener_error e then 1 else exit_code s) ∧
  b = (if bool_decide (event_type e = PN_PROACTOR_INACTIVE) then false
       else exit_code s' =? 0) ∧
  counted (connects (app s)) (connects (app s')) ∧
  counted (disconnects (app s)) (disconnects (app s')) ∧
  (event_type e ≠ PN_LISTENER_ACCEPT → event_type e ≠ PN_PROACTOR_TIMEOUT →
   Forall quiet t).
Proof.
  intros H. unfold listener_error, counted.
  destruct (to_handle_receive (event_type e)) eqn:Hr.
  - (* passed on to handle_receive *)
    rewrite handle_default in H by done.
    assert (Hne : event_type e ≠ PN_PROACTOR_INACTIVE ∧ event_type e ≠ PN_LISTENER_CLOSE)
      by (split; intros Ht; by rewrite Ht in Hr).
    destruct Hne as [Hne1 Hne2].
    rewrite (bool_decide_eq_false_2 _ Hne1), (bool_decide_eq_false_2 _ Hne2). simpl.
    apply bind_Ok in H as ([] & s1 & t1 & t2 & Hw & H & ->).
    injection H as <- <- <-. rewrite app_nil_r.
    destruct (is_null (event_raw_connection e)); simpl in Hw.
    + unfold ret in Hw. injection Hw as <- <-. split_and!; try done; by left.
    + apply handle_receive_frame in Hw as (Hlen & Hctx & Hex & _ & Hc1 & Hc2 & Hq).
      rewrite Hctx. split_and!; try done. by left.
  - destruct (event_type e) eqn:Ht; try discriminate; clear Hr; simpl.
    + rewrite handle_listener_open in H by done.
      injection H as <- <- <-.
      split_and!; try done; try (by left). by repeat constructor.
    + (* accept *)
      unfold handle in H. rewrite Ht in H.
      apply bind_Ok in H as (c & s1 & t1 & t2 & Hn & H & ->).
      unfold pn_raw_connection, bind, modify, ret in Hn. injection Hn as <- <- <-.
      apply bind_Ok in H as (cd & s2 & t3 & t4 & Hm & H & ->).
      apply make_conn_data_loop_frame in Hm as (Hlen & Hctx & Hex & Happ & -> & Hj).
      simpl in *.
      assert (Hold : ∀ c i, contexts s2 !! c = Some i → contexts s !! c = Some i).
      { intros c i. rewrite Hctx. intros [_ ?]%lookup_delete_Some. done. }
      apply bind_Ok in H as ([] & s3 & t5 & t6 & Hb & H & ->).
      injection H as <- <- <-.
      destruct cd as [j |].
      * unfold bind, modify, get, when, call, ret, pn_raw_connection_set_context in Hb.
        simpl in Hb.
        destruct (wake_conn_time (app s2) <? now_64 e); injection Hb as <- <-;
          simpl; rewrite Happ;
          (split_and!; [done | | done | done | by left | by left | done]);
          intros c' i [[_ <-] | [_ Hc]]%lookup_insert_Some; eauto.
      * unfold bind, call in Hb. injection Hb as <- <-. rewrite Happ.
        split_and!; try done; try (by left). eauto.
    + (* listener close *)
      destruct (condition e) as [[n d] |] eqn:Hc.
      * rewrite (handle_listener_close_error _ _ n d) in H by done.
        injection H as <- <- <-. simpl. split_and!; try done; try (by left).
        intros _ _. destruct (is_null (event_raw_connection e)); by repeat constructor.
      * rewrite handle_listener_close_clean in H by done.
        injection H as <- <- <-. simpl. split_and!; try done; by left.
    + (* timeout *)
      unfold handle in H. rewrite Ht in H.
      apply bind_Ok in H as (r & s1 & t1 & t2 & Hh & H & ->).
      apply handle_timeout_frame in Hh as (Hcd & Hctx & Hex & Hc1 & Hc2).
      apply bind_Ok in H as ([] & s2 & t3 & t4 & Hb & H & ->).
      injection H as <- <- <-.
      assert (s2 = s1) as -> by (destruct r; by injection Hb as <- <-).
      rewrite Hcd, Hctx, Hex, Hc1, Hc2. split_and!; try done; by left.
    + rewrite handle_inactive in H by done.
      injection H as <- <- <-. split_and!; try done; by left.
Qed.

(** ** The slot table along a run *)

Lemma initial_table_ok l : table_ok (initial_state l).
Proof. split; [reflexivity |]. intros c i. simpl. by rewrite lookup_empty. Qed.

Lemma handle_table_ok e s b s' t :
  table_ok s → handle e s = Ok (b, s', t) → table_ok s'.
Proof.
  intros [Hlen Hctx] (Hlen' & Hctx' & _)%handle_frame. split; [congruence |].
  intros c i [Hc | Hi]%Hctx'; [by eapply Hctx | by rewrite <- Hlen].
Qed.

Lemma run_cons_Ok e rest s b s' t :
  run (e :: rest) s = Ok (b, s', t) →
  ∃ b1 s1 t1, handle e s = Ok (b1, s1, t1) ∧
    (if b1 then ∃ t2, run rest s1 = Ok (b, s', t2) ∧ t = t1 ++ t2
     else b = true ∧ s' = s1 ∧ t = t1).
Proof.
  simpl. intros (b1 & s1 & t1 & t2 & Hh & H & ->)%bind_Ok.
  exists b1, s1, t1. split; [done |]. destruct b1.
  - by exists t2.
  - injection H as <- <- <-. by rewrite app_nil_r.
Qed.

Lemma run_table_ok events : ∀ s b s' t,
  table_ok s → run events s = Ok (b, s', t) → table_ok s'.
Proof.
  induction events as [| e rest IH]; intros s b s' t Hok H.
  - by injection H as <- <- <-.
  - apply run_cons_Ok in H as (b1 & s1 & t1 & Hh & H).
    apply (handle_table_ok _ _ _ _ _ Hok) in Hh. destruct b1.
    + destruct H as (t2 & H & ->). by eapply IH.
    + by destruct H as (_ & -> & _).
Qed.

(** ** When [handle] is defined *)

Lemma table_ok_lookup s c i :
  table_ok s → contexts s !! c = Some i → is_Some (conn_data s !! i).
Proof.
  intros [Hlen Hctx] Hc. apply lookup_lt_is_Some_2. rewrite Hlen. by eapply Hctx.
Qed.

Lemma handle_receive_defined e s :
  table_ok s →
  is_Some (contexts s !! event_raw_connection e) ∨
  (event_type e ≠ PN_RAW_CONNECTION_READ ∧ event_type e ≠ PN_RAW_CONNECTION_WAKE) →
  ∃ s' t, handle_receive e s = Ok (tt, s', t).
Proof.
  intros Hok Hpre.
  destruct (contexts s !! event_raw_connection e) as [i |] eqn:Hc.
  - destruct (table_ok_lookup _ _ _ Hok Hc) as [d Hd].
    destruct (event_type e) eqn:Ht;
      first
        [ rewrite (receive_connected_bound _ _ _ Ht Hc)
        | rewrite (receive_wake_bound _ _ _ Ht Hc)
        | rewrite (receive_disconnected_bound _ _ _ _ Ht Hc Hd)
        | rewrite (receive_read_bound _ _ _ _ Ht Hc Hd)
        | rewrite (receive_closed _ _ (or_introl Ht))
        | rewrite (receive_closed _ _ (or_intror Ht))
        | rewrite (receive_written _ _ Ht)
        | (unfold handle_receive; rewrite Ht; unfold ret) ];
      eauto.
  - destruct Hpre as [[? [=]] | [Hr Hw]].
    destruct (event_type e) eqn:Ht; try done;
      first
        [ rewrite (receive_connected_unbound _ _ Ht Hc)
        | rewrite (receive_disconnected_unbound _ _ Ht Hc)
        | rewrite (receive_closed _ _ (or_introl Ht))
        | rewrite (receive_closed _ _ (or_intror Ht))
        | rewrite (receive_written _ _ Ht)
        | (unfold handle_receive; rewrite Ht; unfold ret) ];
      eauto.
Qed.

Lemma handle_defined e s :
  table_ok s →
  event_raw_connection e = NULL ∨
  is_Some (contexts s !! event_raw_connection e) ∨
  (event_type e ≠ PN_RAW_CONNECTION_READ ∧ event_type e ≠ PN_RAW_CONNECTION_WAKE) →
  ∃ b s' t, handle e s = Ok (b, s', t).
Proof.
  intros Hok Hpre.
  destruct (to_handle_receive (event_type e)) eqn:Hr.
  - destruct (decide (event_raw_connection e = NULL)) as [Hc | Hc].
    + rewrite handle_no_connection by done. eauto.
    + destruct (handle_receive_defined e s Hok) as (s' & t & H); [tauto |].
      rewrite (handle_receive_Ok _ _ _ _ Hr Hc H). eauto.
  - destruct (event_type e) eqn:Ht; try discriminate; clear Hr.
    + rewrite handle_listener_open by done. eauto.
    + destruct Hok as [Hlen _].
      destruct (first_free_slot (conn_data s)) as [Hall | (j & d & Hd & Hfree & Hall)].
      * rewrite handle_accept_full by done. eauto.
      * rewrite (handle_accept_free _ _ j d) by done. eauto.
    + destruct (condition e) as [[n d] |] eqn:Hcond.
      * rewrite (handle_listener_close_error _ _ n d) by done. eauto.
      * rewrite handle_listener_close_clean by done. eauto.
    + destruct Hok as [Hlen _].
      destruct (decide (to_int (connects (app s) - disconnects (app s)) = 0)) as [H0 | H0].
      * destruct (decide (first_idle_time (app s) = 0)) as [H1 | H1].
        { rewrite handle_timeout_idle_start by done. eauto. }
        destruct (Z_le_gt_dec (to_int64 (first_idle_time (app s) + 20000)) (now_64 e)).
        { rewrite handle_timeout_idle_shutdown by done. eauto. }
        { rewrite handle_timeout_idle_wait by (done || lia). eauto. }
      * destruct (Z_le_gt_dec (wake_conn_time (app s)) (now_64 e)).
        { rewrite handle_timeout_sweep by done. eauto. }
        { rewrite handle_timeout_active by (done || lia). eauto. }
    + rewrite handle_inactive by done. eauto.
Qed.

(** Without data-arrival and wake events every run is defined. *)
Lemma run_defined events : ∀ s,
  table_ok s →
  Forall (fun e => event_type e ≠ PN_RAW_CONNECTION_READ ∧
                   event_type e ≠ PN_RAW_CONNECTION_WAKE) events →
  ∃ b s' t, run events s = Ok (b, s', t).
Proof.
  induction events as [| e rest IH]; intros s Hok Hall; simpl.
  - unfold ret. eauto.
  - apply Forall_cons in Hall as [He Hall].
    destruct (handle_defined e s Hok) as (b1 & s1 & t1 & Hh); [tauto |].
    erewrite bind_eq by exact Hh. destruct b1.
    + destruct (IH s1) as (b & s' & t & Hr); [by eapply handle_table_ok | done |].
      rewrite Hr. eauto.
    + unfold ret. eauto.
Qed.

(** ** The exit code *)

Lemma run_exit_code events : ∀ s b s' t,
  exit_code s = 0 →
  run events s = Ok (b, s', t) →
  match find ends_run events with
  | Some e => b = true ∧ exit_code s' = (if listener_error e then 1 else 0)
  | None => b = false ∧ exit_code s' = 0
  end.
Proof.
  induction events as [| e rest IH]; intros s b s' t H0 H.
  - by injection H as <- <- <-.
  - apply run_cons_Ok in H as (b1 & s1 & t1 & Hh & H).
    apply handle_frame in Hh as (_ & _ & Hex & Hb & _).
    simpl. unfold ends_run at 1.
    destruct (listener_error e) eqn:Hle.
    + rewrite orb_true_r. rewrite Hle.
      assert (b1 = false) as ->.
      { rewrite Hb, Hex. by destruct (bool_decide _). }
      destruct H as (-> & -> & _). done.
    + rewrite orb_false_r. rewrite Hex, H0 in Hb.
      destruct (bool_decide (event_type e = PN_PROACTOR_INACTIVE)); subst b1.
      * rewrite Hle. destruct H as (-> & -> & _). split; congruence.
      * simpl in H. destruct H as (t2 & H & ->).
        eapply IH; [| exact H]. congruence.
Qed.

(** ** Reachable states *)

Lemma counted_range n n' : counted n n' → int_range n → int_range n'.
Proof. intros [-> | ->] Hn; [done | apply to_int_in_range]. Qed.

Lemma run_counters events : ∀ s b s' t,
  int_range (connects (app s)) → int_range (disconnects (app s)) →
  run events s = Ok (b, s', t) →
  int_range (connects (app s')) ∧ int_range (disconnects (app s')).
Proof.
  induction events as [| e rest IH]; intros s b s' t Hc Hd H.
  - by injection H as <- <- <-.
  - apply run_cons_Ok in H as (b1 & s1 & t1 & Hh & H).
    apply handle_frame in Hh as (_ & _ & _ & _ & Hc1 & Hd1 & _).
    apply counted_range in Hc1; [| done]. apply counted_range in Hd1; [| done].
    destruct b1.
    + destruct H as (t2 & H & ->). by eapply IH.
    + by destruct H as (_ & -> & _).
Qed.

Lemma reachable_ok s :
  reachable s →
  table_ok s ∧ exit_code s = 0 ∧
  int_range (connects (app s)) ∧ int_range (disconnects (app s)).
Proof.
  intros (l & events & t & H). split_and!.
  - by eapply run_table_ok; [apply initial_table_ok |].
  - apply run_exit_code in H; [| reflexivity].
    destruct (find ends_run events); by destruct H.
  - eapply run_counters in H; [by destruct H | |]; by unfold int_range.
  - eapply run_counters in H; [by destruct H | |]; by unfold int_range.
Qed.

(** ** Reservation, seen from its result *)

Lemma make_conn_data_loop_Some c k : ∀ i s j s' t,
  make_conn_data_loop k i c s = Ok (Some j, s', t) →
  ∃ d, conn_data s !! j = Some d ∧ connection d = NULL ∧
       conn_data s' = <[j := with_connection c d]> (conn_data s).
Proof.
  induction k as [| k IH]; intros i s j s' t H; simpl in H; [done |].
  apply bind_Ok in H as (d & s1 & t1 & t2 & Hl & H & ->).
  apply load_Ok in Hl as (Hd & -> & ->).
  destruct (is_null (connection d)) eqn:Hn.
  - erewrite bind_eq in H by (by apply store_eq).
    injection H as <- <- <-. exists d. split_and!; try done.
    by apply Z.eqb_eq in Hn.
  - by apply IH in H.
Qed.

(** ** Buffers of a batch *)

Lemma visited_all buffs :
  Forall (fun b => buf_bytes b ≠ NULL) buffs → visited buffs = buffs.
Proof.
  induction 1 as [| b rest Hb _ IH]; simpl; [done |].
  by rewrite (is_null_false _ Hb), IH.
Qed.

Lemma live_connections_spec (t : list conn_data_t) c :
  c ∈ live_connections t ↔
  c ≠ NULL ∧ ∃ i d, t !! i = Some d ∧ connection d = c.
Proof.
  unfold live_connections. rewrite list_elem_of_filter, list_elem_of_fmap.
  split.
  - intros [Hc (d & -> & [i Hi]%list_elem_of_lookup)]. eauto.
  - intros [Hc (i & d & Hi & <-)]. split; [done |].
    exists d. split; [done |]. apply list_elem_of_lookup. eauto.
Qed.

(** ** An engine whose listener is closed and whose timer is idle *)

Lemma quiet_calls_engine t : ∀ g, Forall quiet t → foldl engine_call g t = g.
Proof.
  induction t as [| a t IH]; intros g Hq; simpl; [done |].
  apply Forall_cons in Hq as [[Ha1 Ha2] Hq].
  rewrite <- (IH g Hq) at 2. f_equal. by destruct a.
Qed.

Lemma closed_engine_delivers g e :
  listener_open g = false → timer_armed g = false →
  deliverable g e = true →
  event_type e ≠ PN_LISTENER_ACCEPT ∧ event_type e ≠ PN_PROACTOR_TIMEOUT.
Proof.
  unfold deliverable. intros Hl Ht.
  destruct (event_type e); try done; congruence.
Qed.

Lemma closed_engine_stays_closed events : ∀ g s,
  listener_open g = false → timer_armed g = false →
  engine_delivers g s events →
  Forall (fun e => event_type e ≠ PN_LISTENER_ACCEPT ∧
                   event_type e ≠ PN_PROACTOR_TIMEOUT) events ∧
  ∀ b s' t, run events s = Ok (b, s', t) → Forall quiet t.
Proof.
  induction events as [| e rest IH]; intros g s Hl Ht Hd.
  - split; [constructor |]. intros b s' t H. injection H as <- <- <-. constructor.
  - destruct Hd as [Hdel Hd].
    destruct (closed_engine_delivers g e Hl Ht Hdel) as [Hna Hnt].
    destruct (handle e s) as [[[b1 s1] t1] | u] eqn:Hh.
    + pose proof (handle_frame _ _ _ _ _ Hh) as (_ & _ & _ & _ & _ & _ & Hq).
      specialize (Hq Hna Hnt).
      destruct b1.
      * assert (Hg : engine_after g e t1 = g).
        { unfold engine_after, deliver.
          rewrite quiet_calls_engine by done. by destruct (event_type e). }
        rewrite Hg in Hd. destruct (IH g s1 Hl Ht Hd) as [Hall Hrun].
        split; [by constructor |].
        intros b s' t (b1 & s1' & t1' & Hh' & H)%run_cons_Ok.
        rewrite Hh in Hh'. injection Hh' as <- <- <-.
        destruct H as (t2 & H & ->). apply Forall_app. split; [done |]. by eapply Hrun.
      * subst rest. split; [by repeat constructor |].
        intros b s' t (b1 & s1' & t1' & Hh' & H)%run_cons_Ok.
        rewrite Hh in Hh'. injection Hh' as <- <- <-.
        by destruct H as (_ & _ & ->).
    + subst rest. split; [by repeat constructor |].
      intros b s' t (b1 & s1' & t1' & Hh' & H)%run_cons_Ok. congruence.
Qed.

(** ** Runs in two parts, and what a disconnect prints *)

Lemma run_app events1 events2 s :
  run (events1 ++ events2) s =
    match run events1 s with
    | Ok (false, s1, t1) =>
        match run events2 s1 with
        | Ok (b, s2, t2) => Ok (b, s2, t1 ++ t2)
        | Undefined u => Undefined u
        end
    | r => r
    end.
Proof.
  revert s. induction events1 as [| e rest IH]; intros s; simpl.
  - unfold ret. by destruct (run events2 s) as [[[b s2] t2] |].
  - unfold bind. destruct (handle e s) as [[[b1 s1] t1] | u]; [| done].
    destruct b1; [| done].
    rewrite IH. destruct (run rest s1) as [[[[] s2] t2] | u]; try done.
    destruct (run events2 s2) as [[[b3 s3] t3] | u]; [| done].
    by rewrite app_assoc.
Qed.

Lemma find_app_None {A} (f : A → bool) (l1 l2 : list A) :
  find f l1 = None → find f (l1 ++ l2) = find f l2.
Proof.
  induction l1 as [| x l1 IH]; simpl; [done |].
  destruct (f x); [done | exact IH].
Qed.

Lemma handle_disconnected_reports e s b s' t name description :
  handle e s = Ok (b, s', t) →
  event_type e = PN_RAW_CONNECTION_DISCONNECTED →
  event_raw_connection e ≠ NULL →
  condition e = Some (name, description) →
  fprintf_stderr_condition PN_RAW_CONNECTION_DISCONNECTED name description ∈ t.
Proof.
  intros H Ht Hc Hcond.
  rewrite handle_default in H by (by rewrite Ht).
  rewrite (is_null_false _ Hc) in H. simpl in H.
  apply bind_Ok in H as ([] & s1 & t1 & t2 & Hr & H & ->).
  injection H as <- <- <-. rewrite app_nil_r.
  assert (Hin : fprintf_stderr_condition PN_RAW_CONNECTION_DISCONNECTED name description
                  ∈ condition_report e).
  { unfold condition_report. rewrite Hcond, Ht. apply list_elem_of_here. }
  destruct (contexts s !! event_raw_connection e) as [i |] eqn:Hctx.
  - destruct (conn_data s !! i) as [d |] eqn:Hd.
    + rewrite (receive_disconnected_bound _ _ _ _ Ht Hctx Hd) in Hr.
      injection Hr as <- <-. by apply list_elem_of_further.
    + by rewrite (receive_disconnected_out_of_bounds _ _ _ Ht Hctx Hd) in Hr.
  - rewrite (receive_disconnected_unbound _ _ Ht Hctx) in Hr.
    injection Hr as <- <-. by apply list_elem_of_further.
Qed.

(** * The claims *)

Lemma busy_state_reachable : reachable busy_state.
Proof.
  exists 100, (take 5 six_accepts ++ take 5 (drop 6 six_connections_come_and_go)).
  eexists. vm_compute. reflexivity.
Qed.

(** ** C1: the counters when a connection without a slot is torn down

    C1 says that [disconnects <= connects] holds after every sequence of
    events, rejected connections included.  The handler of
    [PN_RAW_CONNECTION_CONNECTED] counts a connection only when it has a
    slot, the handler of [PN_RAW_CONNECTION_DISCONNECTED] counts every
    connection.  After six connection attempts, of which the sixth is
    accepted and closed at once, and the teardown of all six, [connects]
    is 5 and [disconnects] is 6. *)
Theorem C1_rejected_connection_counted_as_disconnect :
  ∃ s t,
    run six_connections_come_and_go (initial_state 100) = Ok (false, s, t) ∧
    connects (app s) = 5 ∧ disconnects (app s) = 6 ∧
    ¬ disconnects (app s) <= connects (app s).
Proof.
  eexists _, _. split; [vm_compute; reflexivity |]. simpl. lia.
Qed.

(** ** C2: a slot after its connection is gone *)

(** C2 as stated fails: a connection receives four bytes in one buffer
    at time 1500 and disconnects; its slot is free but still holds the
    counts, and the next connection gets the slot with them. *)
Lemma C2_counters_survive_release_and_reuse :
  ∃ s1 t1 s2 t2,
    run slot_used_once (initial_state 100) = Ok (false, s1, t1) ∧
    conn_data s1 !! 0%nat = Some (mk_conn_data NULL 1500 4 1) ∧
    run slot_used_twice (initial_state 100) = Ok (false, s2, t2) ∧
    conn_data s2 !! 0%nat = Some (mk_conn_data 2 1500 4 1).
Proof.
  eexists _, _, _, _. split_and!; vm_compute; reflexivity.
Qed.

(** C2, amended: after the disconnect event of a connection bound to
    slot [i] the slot is free, the other slots are as before, and the
    slot keeps [last_recv_time], [bytes] and [buffers]; a later
    [make_conn_data] that picks slot [i] writes the connection and keeps
    the three fields too. *)
Theorem C2_disconnect_frees_slot_and_keeps_counters e s i d :
  event_type e = PN_RAW_CONNECTION_DISCONNECTED →
  event_raw_connection e ≠ NULL →
  contexts s !! event_raw_connection e = Some i →
  conn_data s !! i = Some d →
  ∃ s' t,
    handle e s = Ok (exit_code s =? 0, s', t) ∧
    conn_data s' !! i =
      Some (mk_conn_data NULL (last_recv_time d) (bytes d) (buffers d)) ∧
    (∀ j, j ≠ i → conn_data s' !! j = conn_data s !! j) ∧
    ∀ c s'' t', make_conn_data c s' = Ok (Some i, s'', t') →
      conn_data s'' !! i =
        Some (mk_conn_data c (last_recv_time d) (bytes d) (buffers d)).
Proof.
  intros Ht Hc Hctx Hd.
  pose proof (receive_disconnected_bound e s i d Ht Hctx Hd) as Hr.
  apply handle_receive_Ok in Hr; [| by rewrite Ht | done].
  eexists _, _. split; [exact Hr |]. simpl.
  assert (Hi : (i < length (conn_data s))%nat) by (by eapply lookup_lt_Some).
  split_and!.
  - by apply list_lookup_insert_eq.
  - intros j Hj. by apply list_lookup_insert_ne.
  - intros c s'' t' (d' & Hd' & _ & ->)%make_conn_data_loop_Some.
    simpl in Hd'. rewrite list_lookup_insert_eq in Hd' by done.
    injection Hd' as <-. simpl.
    apply list_lookup_insert_eq. by rewrite length_insert.
Qed.

Lemma C2_witness :
  ∃ s' t,
    handle (disconnected_event 3 None) busy_state = Ok (true, s', t) ∧
    conn_data s' !! 2%nat = Some (mk_conn_data NULL 0 0 0).
Proof.
  destruct (C2_disconnect_frees_slot_and_keeps_counters
              (disconnected_event 3 None) busy_state 2 (mk_conn_data 3 0 0 0))
    as (s' & t & H & Hs & _); [reflexivity | done | reflexivity | reflexivity |].
  by exists s', t.
Defined.

(** ** C3: at most five bound slots

    Whatever events were handled since [main] started, the table has its
    five entries, so at most five are bound; [make_conn_data] returns
    null when all five are bound, and otherwise takes the first free
    entry, writes the connection into it and leaves the others alone. *)
Theorem C3_bound_slots_never_exceed_capacity l events b s t :
  run events (initial_state l) = Ok (b, s, t) →
  length (conn_data s) = MAX_CONNECTIONS ∧
  (bound_slots s ≤ 5)%nat ∧
  ∀ c,
    (all_bound (conn_data s) ∧ make_conn_data c s = Ok (None, s, [])) ∨
    (∃ j d, (j < 5)%nat ∧ conn_data s !! j = Some d ∧ connection d = NULL ∧
            all_bound (take j (conn_data s)) ∧
            make_conn_data c s =
              Ok (Some j, set_conn_data (fun tb => <[j := with_connection c d]> tb) s, [])).
Proof.
  intros Hrun.
  destruct (run_table_ok _ _ _ _ _ (initial_table_ok l) Hrun) as [Hlen _].
  split_and!; [done | |].
  - unfold bound_slots. etrans; [apply live_connections_length_le |]. by rewrite Hlen.
  - intros c.
    destruct (first_free_slot (conn_data s)) as [Hall | (j & d & Hd & Hfree & Hall)].
    + left. split; [done |]. by apply make_conn_data_full.
    + right. exists j, d. split_and!; try done.
      * apply lookup_lt_Some in Hd. by rewrite Hlen in Hd.
      * by apply make_conn_data_free.
Qed.

Lemma C3_witness :
  ∃ s t,
    run six_accepts (initial_state 100) = Ok (false, s, t) ∧
    length (conn_data s) = MAX_CONNECTIONS ∧ (bound_slots s ≤ 5)%nat.
Proof.
  eexists _, _. split; [vm_compute; reflexivity |].
  pose proof (C3_bound_slots_never_exceed_capacity 100 six_accepts false _ _
                ltac:(vm_compute; reflexivity)) as (Hlen & Hbound & _).
  exact (conj Hlen Hbound).
Defined.

(** ** C4: shutdown after the idle window

    The timer fires with [connects = disconnects], [first_idle_time] set
    and at least 20000 ms old.  The handler makes one call,
    [pn_listener_close] on the listener, does not arm the timer and
    changes nothing in the state.  From then on the engine's listener is
    closed and its timer idle, so whatever it still delivers contains no
    incoming-connection and no timer event, and the program neither
    closes the listener again nor arms the timer. *)
Theorem C4_idle_shutdown_closes_listener_once e s g :
  event_type e = PN_PROACTOR_TIMEOUT →
  int64_range (first_idle_time (app s)) →
  int64_range (now_64 e) →
  connects (app s) = disconnects (app s) →
  first_idle_time (app s) ≠ 0 →
  first_idle_time (app s) + 20000 <= now_64 e →
  let t := [pn_listener_close (listener (app s))] in
  handle e s = Ok (exit_code s =? 0, s, t) ∧
  listener_open (engine_after g e t) = false ∧
  timer_armed (engine_after g e t) = false ∧
  ∀ rest,
    engine_delivers (engine_after g e t) s rest →
    Forall (fun e' => event_type e' ≠ PN_LISTENER_ACCEPT ∧
                      event_type e' ≠ PN_PROACTOR_TIMEOUT) rest ∧
    ∀ b s' t', run rest s = Ok (b, s', t') →
      Forall (fun a => is_listener_close a = false ∧ is_set_timeout a = false) t'.
Proof.
  intros Ht Hr1 Hr2 Heq Hset Hold t.
  assert (Hg1 : listener_open (engine_after g e t) = false) by reflexivity.
  assert (Hg2 : timer_armed (engine_after g e t) = false).
  { unfold engine_after, deliver. by rewrite Ht. }
  split_and!; try done.
  - apply handle_timeout_idle_shutdown; try done.
    + by rewrite Heq, Z.sub_diag.
    + rewrite to_int64_id; [done |]. unfold int64_range in *. lia.
  - intros rest Hd. by eapply closed_engine_stays_closed.
Qed.

Lemma C4_witness :
  handle (timeout_event 50000) idle_state =
    Ok (true, idle_state, [pn_listener_close 100]) ∧
  listener_open (engine_after waiting_engine (timeout_event 50000) [pn_listener_close 100])
    = false.
Proof.
  pose proof (C4_idle_shutdown_closes_listener_once
                (timeout_event 50000) idle_state waiting_engine) as H.
  destruct H as (H1 & H2 & _);
    [reflexivity | unfold int64_range; simpl; lia | unfold int64_range; simpl; lia
    | reflexivity | discriminate | simpl; lia |].
  exact (conj H1 H2).
Defined.

(** ** C5: the keepalive sweep

    The timer fires with [connects ≠ disconnects] and the wake deadline
    reached.  The handler wakes the connection of every bound slot, in
    slot order, and nothing else; it sets the deadline to [now + 5000]
    and arms the timer with 5000 ms. *)
Theorem C5_keepalive_sweep_wakes_bound_slots e s :
  reachable s →
  event_type e = PN_PROACTOR_TIMEOUT →
  int64_range (now_64 e + 5000) →
  connects (app s) ≠ disconnects (app s) →
  wake_conn_time (app s) <= now_64 e →
  handle e s =
    Ok (exit_code s =? 0,
        set_app (with_wake_conn_time (now_64 e + 5000)) s,
        (pn_raw_connection_wake <$> live_connections (conn_data s)) ++
        [pn_proactor_set_timeout 5000]) ∧
  ∀ c, c ∈ live_connections (conn_data s) ↔
       c ≠ NULL ∧ ∃ i d, conn_data s !! i = Some d ∧ connection d = c.
Proof.
  intros ([Hlen _] & _ & Hc & Hd)%reachable_ok Ht Hnow Hne Hwake. split.
  - rewrite handle_timeout_sweep; try done.
    + by rewrite to_int64_id.
    + by rewrite to_int_sub_eq_0.
  - intros c. apply live_connections_spec.
Qed.

Lemma C5_witness :
  handle (timeout_event 7000) busy_state =
    Ok (true, set_app (with_wake_conn_time 12000) busy_state,
        [pn_raw_connection_wake 1; pn_raw_connection_wake 2; pn_raw_connection_wake 3;
         pn_raw_connection_wake 4; pn_raw_connection_wake 5;
         pn_proactor_set_timeout 5000]).
Proof.
  apply (C5_keepalive_sweep_wakes_bound_slots (timeout_event 7000) busy_state);
    [apply busy_state_reachable | reflexivity | unfold int64_range; simpl; lia
    | simpl; lia | simpl; lia].
Defined.

(** ** C6: echoing the buffers of a data-arrival event *)

(** C6 as stated fails: in a batch of two buffers whose first has a
    null [bytes], the loop that delivers the payloads stops at once; the
    four bytes of the second buffer are not written to the output, and
    the batch is handed to the write side all the same. *)
Lemma C6_payload_after_null_buffer_not_delivered :
  ∃ s t,
    run read_with_hole (initial_state 100) = Ok (false, s, t) ∧
    pn_raw_connection_write_buffers 1 (taken_buffers batch_with_hole) ∈ t ∧
    fwrite_stdout 66560 4 ∉ t.
Proof.
  eexists _, _. split_and!; [vm_compute; reflexivity | |].
  - do 4 apply list_elem_of_further. apply list_elem_of_here.
  - intros H. repeat (apply elem_of_cons in H as [[=] | H]). by apply elem_of_nil in H.
Qed.

(** C6, amended: on a data-arrival event of a connection with a slot,
    the calls made are, batch after batch (up to the first empty one),
    the payloads of the buffers before the first one with a null [bytes]
    written to the output, and then the disposition of the batch: the
    whole batch handed to the write side when the write direction is
    open, else the whole batch handed back for reading when the read
    direction is open, else the memory of the buffers before the first
    null one freed.  When no buffer of a batch has a null [bytes], these
    are all its buffers. *)
Theorem C6_read_delivers_and_disposes e s i d :
  event_type e = PN_RAW_CONNECTION_READ →
  event_raw_connection e ≠ NULL →
  contexts s !! event_raw_connection e = Some i →
  conn_data s !! i = Some d →
  let c := event_raw_connection e in
  ∃ s' t,
    handle e s = Ok (exit_code s =? 0, s', t) ∧
    t = flat_map (fun b => delivered (taken_buffers b) ++ read_disposition c b)
                 (handled (taken e)) ∧
    ∀ b, b ∈ handled (taken e) →
      (∀ buf, buf ∈ visited (taken_buffers b) →
              fwrite_stdout (buf_bytes buf) (buf_size buf) ∈ t) ∧
      (Forall (fun buf => buf_bytes buf ≠ NULL) (taken_buffers b) →
       visited (taken_buffers b) = taken_buffers b) ∧
      (write_closed b = false →
       pn_raw_connection_write_buffers c (taken_buffers b) ∈ t) ∧
      (write_closed b = true → read_closed b = false →
       pn_raw_connection_give_read_buffers c (taken_buffers b) ∈ t) ∧
      (write_closed b = true → read_closed b = true →
       ∀ buf, buf ∈ visited (taken_buffers b) → free (buf_bytes buf) ∈ t).
Proof.
  intros Ht Hc Hctx Hd c.
  pose proof (receive_read_bound e s i d Ht Hctx Hd) as Hr.
  apply handle_receive_Ok in Hr; [| by rewrite Ht | done].
  eexists _, _. split; [exact Hr |]. split; [reflexivity |].
  intros b Hb. fold c. unfold read_calls.
  assert (Hin : ∀ a, a ∈ delivered (taken_buffers b) ++ read_disposition c b →
                     a ∈ flat_map (fun b => delivered (taken_buffers b) ++ read_disposition c b)
                                  (handled (taken e))).
  { intros a Ha. apply list_elem_of_In, in_flat_map. exists b.
    split; by apply list_elem_of_In. }
  split_and!.
  - intros buf Hbuf. apply Hin, elem_of_app. left.
    unfold delivered. apply list_elem_of_In, in_map_iff. exists buf.
    split; [done | by apply list_elem_of_In].
  - apply visited_all.
  - intros Hw. apply Hin, elem_of_app. right.
    unfold read_disposition. rewrite Hw. apply list_elem_of_here.
  - intros Hw Hrd. apply Hin, elem_of_app. right.
    unfold read_disposition. rewrite Hw, Hrd. apply list_elem_of_here.
  - intros Hw Hrd buf Hbuf. apply Hin, elem_of_app. right.
    unfold read_disposition. rewrite Hw, Hrd. simpl.
    unfold freed. apply list_elem_of_In, in_map_iff. exists buf.
    split; [done | by apply list_elem_of_In].
Qed.

Lemma C6_witness :
  ∃ s',
    handle (read_event 1 1500 [ping]) busy_state =
      Ok (true, s',
          [fwrite_stdout 65536 4;
           pn_raw_connection_write_buffers 1 [mk_raw_buffer 0 65536 1024 4 0]]).
Proof.
  destruct (C6_read_delivers_and_disposes (read_event 1 1500 [ping]) busy_state
              0 (mk_conn_data 1 0 0 0))
    as (s' & t & H & -> & _); [reflexivity | done | reflexivity | reflexivity |].
  by exists s'.
Defined.

(** ** C7: a connection that finds the table full

    When all slots are bound, the incoming connection is accepted through
    [pn_listener_raw_accept] and closed at once.  The slot table, the
    counters and the exit code are untouched, the new connection has no
    context, [handle] returns true and [run] goes on with the events
    that follow. *)
Theorem C7_full_table_accepts_then_closes e s rest :
  reachable s →
  event_type e = PN_LISTENER_ACCEPT →
  all_bound (conn_data s) →
  let c := new_raw_connection e in
  let s' := set_contexts (delete c) s in
  let t := [printf_too_many_connections;
            pn_listener_raw_accept (event_listener e) c;
            pn_raw_connection_close c] in
  handle e s = Ok (true, s', t) ∧
  app s' = app s ∧ conn_data s' = conn_data s ∧ exit_code s' = 0 ∧
  contexts s' !! c = None ∧
  run (e :: rest) s =
    match run rest s' with
    | Ok (b, s'', t') => Ok (b, s'', t ++ t')
    | Undefined u => Undefined u
    end.
Proof.
  intros ([Hlen _] & H0 & _)%reachable_ok Ht Hall c s' t.
  assert (Hh : handle e s = Ok (true, s', t)).
  { rewrite handle_accept_full by done. by rewrite H0. }
  split_and!; try done.
  - apply lookup_delete_eq.
  - simpl. by erewrite bind_eq by exact Hh.
Qed.

Lemma C7_witness :
  handle (accept_event 100 6 1000) busy_state =
    Ok (true, set_contexts (delete 6) busy_state,
        [printf_too_many_connections; pn_listener_raw_accept 100 6;
         pn_raw_connection_close 6]).
Proof.
  apply (C7_full_table_accepts_then_closes (accept_event 100 6 1000) busy_state []);
    [apply busy_state_reachable | reflexivity |].
  unfold all_bound. by repeat constructor.
Defined.

(** ** C8: the exit code *)

(** C8 as stated fails: a connection ends with an error condition, the
    condition is printed, and after a clean shutdown the exit code is
    0. *)
Lemma C8_connection_error_exits_0 :
  ∃ t,
    main 100 connection_error_run = Ok (Some 0, t) ∧
    fprintf_stderr_condition PN_RAW_CONNECTION_DISCONNECTED
      "amqp:connection:framing-error" "connection aborted" ∈ t.
Proof.
  eexists. split; [vm_compute; reflexivity |].
  do 5 apply list_elem_of_further. apply list_elem_of_here.
Qed.

(** C8, amended: [main] returns at the first event that is
    proactor-inactive or a listener close with its condition set; the
    exit code is 1 in the second case and 0 in the first.  The condition
    of a connection is printed when its disconnected event is handled,
    and that event is none of those that decide the exit code, so it does
    not change it.  Before an event that ends the run the process is
    still running.  A sequence of events without data-arrival and wake
    events is always handled to that point. *)
Theorem C8_exit_code_set_by_listener_error_only l events :
  (∀ r t, main l events = Ok (r, t) →
     r = match find ends_run events with
         | Some e => Some (if listener_error e then 1 else 0)
         | None => None
         end) ∧
  (∀ r t pre e post name description,
     main l events = Ok (r, t) →
     events = pre ++ e :: post →
     find ends_run pre = None →
     event_type e = PN_RAW_CONNECTION_DISCONNECTED →
     event_raw_connection e ≠ NULL →
     condition e = Some (name, description) →
     fprintf_stderr_condition PN_RAW_CONNECTION_DISCONNECTED name description ∈ t ∧
     ends_run e = false ∧
     find ends_run events = find ends_run post) ∧
  (Forall (fun e => event_type e ≠ PN_RAW_CONNECTION_READ ∧
                    event_type e ≠ PN_RAW_CONNECTION_WAKE) events →
   ∃ r t, main l events = Ok (r, t)).
Proof.
  unfold main. split_and!.
  - intros r t H.
    destruct (run events (initial_state l)) as [[[b s] t0] | u] eqn:Hrun; [| done].
    apply run_exit_code in Hrun; [| reflexivity].
    destruct (find ends_run events) as [e |]; destruct Hrun as [-> Hex];
      injection H as <- <-; by rewrite ?Hex.
  - intros r t pre e post name description H -> Hpre Ht Hc Hcond.
    assert (Hends : ends_run e = false).
    { unfold ends_run, listener_error. by rewrite Ht. }
    split_and!; [| done |].
    + destruct (run (pre ++ e :: post) (initial_state l)) as [[[b s] t0] | u] eqn:Hrun;
        [| done].
      assert (t = t0) as -> by (destruct b; by injection H as _ <-).
      rewrite run_app in Hrun.
      destruct (run pre (initial_state l)) as [[[b1 s1] t1] | u] eqn:Hp; [| done].
      pose proof (run_exit_code pre (initial_state l) _ _ _ eq_refl Hp) as Hb.
      rewrite Hpre in Hb. destruct Hb as [-> _].
      destruct (run (e :: post) s1) as [[[b2 s2] t2] | u] eqn:He; [| done].
      injection Hrun as <- <- <-.
      apply run_cons_Ok in He as (b3 & s3 & t3 & Hh & He).
      apply elem_of_app. right.
      pose proof (handle_disconnected_reports _ _ _ _ _ _ _ Hh Ht Hc Hcond) as Hin.
      destruct b3.
      * destruct He as (t4 & _ & ->). apply elem_of_app. by left.
      * by destruct He as (_ & _ & ->).
    + rewrite find_app_None by done. simpl. by rewrite Hends.
  - intros Hsafe.
    destruct (run_defined events (initial_state l) (initial_table_ok l) Hsafe)
      as (b & s & t & ->).
    destruct b; eauto.
Qed.

Lemma C8_witness :
  ∃ t, main 100 listener_error_run = Ok (Some 1, t).
Proof.
  destruct (C8_exit_code_set_by_listener_error_only 100 listener_error_run)
    as (Hcode & _ & Hdef).
  destruct Hdef as (r & t & H); [by repeat constructor |].
  exists t. by rewrite (Hcode r t H) in H.
Defined.

(** ** C9: allocating the read buffers *)

(** C9 as stated fails: when the second of the four calls of [malloc]
    fails, the handler still hands four buffers to the engine, the second
    with a null [bytes]; it reports nothing and does not close the
    connection. *)
Lemma C9_failed_malloc_is_handed_out :
  ∃ s t,
    run second_malloc_fails (initial_state 100) = Ok (false, s, t) ∧
    t = [pn_proactor_set_timeout 5000;
         pn_listener_raw_accept 100 1;
         printf_connected 0;
         pn_raw_connection_give_read_buffers 1
           [mk_raw_buffer 0 65536 1024 0 0; mk_raw_buffer 0 NULL 1024 0 0;
            mk_raw_buffer 0 67584 1024 0 0; mk_raw_buffer 0 68608 1024 0 0]] ∧
    pn_raw_connection_close 1 ∉ t.
Proof.
  eexists _, _. split_and!; [vm_compute; reflexivity | reflexivity |].
  intros H. repeat (apply elem_of_cons in H as [[=] | H]). by apply elem_of_nil in H.
Qed.

(** C9, amended: on the connected event of a connection with a slot the
    handler counts the connection and hands exactly [READ_BUFFERS]
    buffers to the engine in one call, each of capacity 1024, size 0 and
    offset 0; the [k]-th carries whatever the [k]-th call of [malloc]
    returned, null included.  No allocation is checked, nothing is
    closed. *)
Theorem C9_connected_hands_out_four_buffers e s i :
  event_type e = PN_RAW_CONNECTION_CONNECTED →
  event_raw_connection e ≠ NULL →
  contexts s !! event_raw_connection e = Some i →
  ∃ bufs,
    handle e s =
      Ok (exit_code s =? 0,
          set_app (fun a => with_connects (to_int (connects a + 1)) a) s,
          [printf_connected (Z.of_nat i);
           pn_raw_connection_give_read_buffers (event_raw_connection e) bufs]) ∧
    length bufs = READ_BUFFERS ∧
    ∀ k, (k < READ_BUFFERS)%nat →
         bufs !! k = Some (mk_raw_buffer 0 (nth k (malloc_results e) NULL) 1024 0 0).
Proof.
  intros Ht Hc Hctx.
  pose proof (receive_connected_bound e s i Ht Hctx) as Hr.
  apply handle_receive_Ok in Hr; [| by rewrite Ht | done].
  eexists. split; [exact Hr |]. split; [reflexivity |].
  intros k Hk. unfold READ_BUFFERS in Hk.
  destruct (malloc_results e) as [| p0 [| p1 [| p2 [| p3 ps]]]];
    destruct k as [| [| [| [| k]]]]; try lia; reflexivity.
Qed.

Lemma C9_witness :
  handle (connected_event 1 (four_blocks 65536)) busy_state =
    Ok (true,
        set_app (with_connects 6) busy_state,
        [printf_connected 0;
         pn_raw_connection_give_read_buffers 1
           [mk_raw_buffer 0 65536 1024 0 0; mk_raw_buffer 0 66560 1024 0 0;
            mk_raw_buffer 0 67584 1024 0 0; mk_raw_buffer 0 68608 1024 0 0]]).
Proof.
  destruct (C9_connected_hands_out_four_buffers
              (connected_event 1 (four_blocks 65536)) busy_state 0)
    as (bufs & H & Hlen & Hk); [reflexivity | done | reflexivity |].
  pose proof (Hk 0%nat ltac:(unfold READ_BUFFERS; lia)) as H0.
  pose proof (Hk 1%nat ltac:(unfold READ_BUFFERS; lia)) as H1.
  pose proof (Hk 2%nat ltac:(unfold READ_BUFFERS; lia)) as H2.
  pose proof (Hk 3%nat ltac:(unfold READ_BUFFERS; lia)) as H3.
  destruct bufs as [| b0 [| b1 [| b2 [| b3 [| b4 bufs]]]]]; try discriminate.
  simpl in H0, H1, H2, H3.
  injection H0 as ->. injection H1 as ->. injection H2 as ->. injection H3 as ->.
  exact H.
Defined.

(** ** C10: events of a connection without a slot *)

(** C10 as stated fails for the wake event: its handler does not
    access anything through the context; it subtracts the address of the
    table from it.  For the rejected sixth connection this is a pointer
    difference on a null pointer, not a dereference. *)
Lemma C10_wake_without_slot_is_no_dereference :
  run (six_accepts ++ [connection_event PN_RAW_CONNECTION_WAKE 6]) (initial_state 100)
    = Undefined NullPointerDifference ∧
  run (six_accepts ++ [connection_event PN_RAW_CONNECTION_WAKE 6]) (initial_state 100)
    ≠ Undefined NullDereference.
Proof.
  assert (H : run (six_accepts ++ [connection_event PN_RAW_CONNECTION_WAKE 6])
                  (initial_state 100) = Undefined NullPointerDifference)
    by (vm_compute; reflexivity).
  split; [exact H |]. rewrite H. discriminate.
Qed.

(** C10, amended: for a data-arrival or wake event of a connection, the
    handler is defined exactly when the connection has a slot as
    context.  Without one, data arrival writes [last_recv_time] through
    the null context, and wake computes [cd - conn_data] on the null
    context without accessing it.  The rejection path leaves the
    connection without context. *)
Theorem C10_read_and_wake_need_a_slot e s :
  reachable s →
  event_raw_connection e ≠ NULL →
  event_type e = PN_RAW_CONNECTION_READ ∨ event_type e = PN_RAW_CONNECTION_WAKE →
  ((∃ r, handle e s = Ok r) ↔ is_Some (contexts s !! event_raw_connection e)) ∧
  (contexts s !! event_raw_connection e = None →
   event_type e = PN_RAW_CONNECTION_READ →
   handle e s = Undefined NullDereference) ∧
  (contexts s !! event_raw_connection e = None →
   event_type e = PN_RAW_CONNECTION_WAKE →
   handle e s = Undefined NullPointerDifference) ∧
  (∀ a b s' t, event_type a = PN_LISTENER_ACCEPT →
     all_bound (conn_data s) →
     handle a s = Ok (b, s', t) →
     contexts s' !! new_raw_connection a = None).
Proof.
  intros (Hok & _)%reachable_ok Hc Ht.
  assert (Hrecv : to_handle_receive (event_type e) = true) by (by destruct Ht as [-> | ->]).
  assert (Hread : contexts s !! event_raw_connection e = None →
                  event_type e = PN_RAW_CONNECTION_READ →
                  handle e s = Undefined NullDereference).
  { intros Hn Hty. apply handle_receive_Undefined; try done.
    by apply receive_read_unbound. }
  assert (Hwake : contexts s !! event_raw_connection e = None →
                  event_type e = PN_RAW_CONNECTION_WAKE →
                  handle e s = Undefined NullPointerDifference).
  { intros Hn Hty. apply handle_receive_Undefined; try done.
    by apply receive_wake_unbound. }
  split_and!; try done.
  - split.
    + intros [r Hr].
      destruct (contexts s !! event_raw_connection e) eqn:Hctx; [done |].
      destruct Ht as [Hty | Hty]; [rewrite Hread in Hr | rewrite Hwake in Hr]; done.
    + intros Hs. destruct (handle_defined e s Hok) as (b & s' & t & H); [tauto |].
      eauto.
  - intros a b s' t Hty Hall H.
    destruct Hok as [Hlen _].
    rewrite handle_accept_full in H by done.
    injection H as <- <- <-. apply lookup_delete_eq.
Qed.

Lemma C10_witness :
  handle (read_event 6 1500 [ping]) busy_state = Undefined NullDereference.
Proof.
  apply (C10_read_and_wake_need_a_slot (read_event 6 1500 [ping]) busy_state);
    [apply busy_state_reachable | done | by left | reflexivity | reflexivity].
Defined.

(** * Further properties of the handlers *)

(** ** More on the loops *)

Lemma make_conn_data_loop_None c k : ∀ i s s' t,
  make_conn_data_loop k i c s = Ok (None, s', t) → s' = s.
Proof.
  induction k as [| k IH]; intros i s s' t H; simpl in H.
  - by injection H as <- <-.
  - apply bind_Ok in H as (d & s1 & t1 & t2 & Hl & H & ->).
    apply load_Ok in Hl as (Hd & -> & ->).
    destruct (is_null (connection d)).
    + erewrite bind_eq in H by (by apply store_eq). discriminate.
    + by apply IH in H.
Qed.

Lemma count_batch_fields d b :
  connection (count_batch d b) = connection d ∧
  last_recv_time (count_batch d b) = last_recv_time d.
Proof. done. Qed.

Lemma count_batches_fields batches : ∀ d,
  connection (count_batches d batches) = connection d ∧
  last_recv_time (count_batches d batches) = last_recv_time d.
Proof.
  unfold count_batches.
  induction (handled batches) as [| b l IH]; intros d; simpl; [done |].
  destruct (IH (count_batch d b)) as [-> ->]. apply count_batch_fields.
Qed.

Lemma wake_loop_calls k : ∀ i s r s' t,
  wake_loop k i s = Ok (r, s', t) →
  Forall (fun a => ∃ d, d ∈ conn_data s ∧ connection d ≠ NULL ∧
                        a = pn_raw_connection_wake (connection d)) t.
Proof.
  induction k as [| k IH]; intros i s r s' t H; simpl in H.
  - injection H as <- <- <-. constructor.
  - apply bind_Ok in H as (d & s1 & t1 & t2 & Hl & H & ->).
    apply load_Ok in Hl as (Hd & -> & ->).
    apply bind_Ok in H as ([] & s2 & t3 & t4 & Hw & H & ->).
    assert (s2 = s ∧ Forall (fun a => ∃ d, d ∈ conn_data s ∧ connection d ≠ NULL ∧
                               a = pn_raw_connection_wake (connection d)) t3)
      as [-> Ht3].
    { unfold is_null in Hw.
      destruct (Z.eqb_spec (connection d) NULL) as [Heq | Hne]; simpl in Hw;
        injection Hw as <- <-; (split; [done |]).
      - constructor.
      - repeat constructor. exists d. split_and!; try done.
        apply list_elem_of_lookup. eauto. }
    apply IH in H. simpl. apply Forall_app. by split.
Qed.

(** ** How one event changes the slot table and the contexts *)

Lemma handle_receive_transition e s s' t :
  handle_receive e s = Ok (tt, s', t) →
  let c := event_raw_connection e in
  contexts s' = contexts s ∧
  (conn_data s' = conn_data s ∨
   (event_type e = PN_RAW_CONNECTION_DISCONNECTED ∧
    ∃ i d, contexts s !! c = Some i ∧ conn_data s !! i = Some d ∧
           conn_data s' = <[i := with_connection NULL d]> (conn_data s)) ∨
   (event_type e = PN_RAW_CONNECTION_READ ∧
    ∃ i d, contexts s !! c = Some i ∧ conn_data s !! i = Some d ∧
           conn_data s' =
             <[i := count_batches (with_last_recv_time (now_64 e) d) (taken e)]>
               (conn_data s))).
Proof.
  intros H c. subst c.
  destruct (contexts s !! event_raw_connection e) as [i |] eqn:Hc;
    [destruct (conn_data s !! i) as [d |] eqn:Hd |];
    destruct (event_type e) eqn:Ht;
    first
      [ rewrite (receive_connected_bound _ _ _ Ht Hc) in H
      | rewrite (receive_connected_unbound _ _ Ht Hc) in H
      | rewrite (receive_wake_bound _ _ _ Ht Hc) in H
      | rewrite (receive_wake_unbound _ _ Ht Hc) in H
      | rewrite (receive_disconnected_bound _ _ _ _ Ht Hc Hd) in H
      | rewrite (receive_disconnected_unbound _ _ Ht Hc) in H
      | rewrite (receive_disconnected_out_of_bounds _ _ _ Ht Hc Hd) in H
      | rewrite (receive_read_bound _ _ _ _ Ht Hc Hd) in H
      | rewrite (receive_read_unbound _ _ Ht Hc) in H
      | rewrite (receive_read_out_of_bounds _ _ _ Ht Hc Hd) in H
      | rewrite (receive_closed _ _ (or_introl Ht)) in H
      | rewrite (receive_closed _ _ (or_intror Ht)) in H
      | rewrite (receive_written _ _ Ht) in H
      | (unfold handle_receive in H; rewrite Ht in H; unfold ret in H) ];
    try discriminate; injection H as <- <-; (split; [reflexivity |]);
    first [ by left | right; left; split; [done |]; by exists i, d
          | right; right; split; [done |]; by exists i, d ].
Qed.

Lemma handle_transition e s b s' t :
  handle e s = Ok (b, s', t) →
  let c := event_raw_connection e in
  let n := new_raw_connection e in
  (event_type e ≠ PN_LISTENER_ACCEPT ∧
   conn_data s' = conn_data s ∧ contexts s' = contexts s) ∨
  (event_type e = PN_LISTENER_ACCEPT ∧
   conn_data s' = conn_data s ∧ contexts s' = delete n (contexts s)) ∨
  (event_type e = PN_LISTENER_ACCEPT ∧
   ∃ j d, conn_data s !! j = Some d ∧ connection d = NULL ∧
          conn_data s' = <[j := with_connection n d]> (conn_data s) ∧
          contexts s' = <[n := j]> (delete n (contexts s))) ∨
  (event_type e = PN_RAW_CONNECTION_DISCONNECTED ∧ c ≠ NULL ∧
   contexts s' = contexts s ∧
   ∃ i d, contexts s !! c = Some i ∧ conn_data s !! i = Some d ∧
          conn_data s' = <[i := with_connection NULL d]> (conn_data s)) ∨
  (event_type e = PN_RAW_CONNECTION_READ ∧ c ≠ NULL ∧
   contexts s' = contexts s ∧
   ∃ i d, contexts s !! c = Some i ∧ conn_data s !! i = Some d ∧
          conn_data s' =
            <[i := count_batches (with_last_recv_time (now_64 e) d) (taken e)]>
              (conn_data s)).
Proof.
  intros H c n. subst c n.
  destruct (to_handle_receive (event_type e)) eqn:Hr.
  - assert (Hna : event_type e ≠ PN_LISTENER_ACCEPT) by (intros Ht; by rewrite Ht in Hr).
    rewrite handle_default in H by done.
    apply bind_Ok in H as ([] & s1 & t1 & t2 & Hw & H & ->).
    injection H as <- <- <-.
    unfold is_null in Hw.
    destruct (Z.eqb_spec (event_raw_connection e) NULL) as [Heq | Hne]; simpl in Hw.
    + unfold ret in Hw. injection Hw as <- <-. by left.
    + apply handle_receive_transition in Hw as (Hctx & [Hcd | [[Ht Hd] | [Ht Hd]]]).
      * by left.
      * do 3 right. left. by split_and!.
      * do 4 right. by split_and!.
  - destruct (event_type e) eqn:Ht; try discriminate; clear Hr.
    + rewrite handle_listener_open in H by done. injection H as <- <- <-. by left.
    + right. unfold handle in H. rewrite Ht in H.
      apply bind_Ok in H as (c & s1 & t1 & t2 & Hn & H & ->).
      unfold pn_raw_connection, bind, modify, ret in Hn. injection Hn as <- <- <-.
      apply bind_Ok in H as (cd & s2 & t3 & t4 & Hm & H & ->).
      apply bind_Ok in H as ([] & s3 & t5 & t6 & Hb & H & ->).
      injection H as <- <- <-.
      destruct cd as [j |].
      * right. left. split; [done |].
        pose proof (make_conn_data_loop_frame _ _ _ _ _ _ _ Hm) as (_ & Hctx & _).
        apply make_conn_data_loop_Some in Hm as (d & Hd & Hfree & Hcd).
        exists j, d. simpl in Hd, Hcd, Hctx.
        unfold bind, modify, get, when, call, ret, pn_raw_connection_set_context in Hb.
        simpl in Hb.
        destruct (wake_conn_time (app s2) <? now_64 e); injection Hb as <- <-;
          simpl; rewrite Hcd, Hctx; by split_and!.
      * left. split; [done |]. apply make_conn_data_loop_None in Hm as ->.
        unfold bind, call in Hb. by injection Hb as <- <-.
    + left. destruct (condition e) as [[nm d] |] eqn:Hc.
      * rewrite (handle_listener_close_error _ _ nm d) in H by done.
        by injection H as <- <- <-.
      * rewrite handle_listener_close_clean in H by done.
        by injection H as <- <- <-.
    + left. unfold handle in H. rewrite Ht in H.
      apply bind_Ok in H as (r & s1 & t1 & t2 & Hh & H & ->).
      apply handle_timeout_frame in Hh as (Hcd & Hctx & _).
      apply bind_Ok in H as ([] & s2 & t3 & t4 & Hb & H & ->).
      injection H as <- <- <-.
      assert (s2 = s1) as -> by (destruct r; by injection Hb as <- <-).
      by split_and!.
    + rewrite handle_inactive in H by done. injection H as <- <- <-. by left.
Qed.

(** ** Reserving and releasing slots *)

Lemma with_connection_release c d :
  connection d = NULL → with_connection NULL (with_connection c d) = d.
Proof. destruct d; simpl. by intros ->. Qed.

Lemma make_conn_data_Some c s j s' t :
  make_conn_data c s = Ok (Some j, s', t) →
  ∃ d, conn_data s !! j = Some d ∧ connection d = NULL ∧
       s' = set_conn_data (fun tb => <[j := with_connection c d]> tb) s ∧ t = [].
Proof.
  intros H.
  pose proof (make_conn_data_loop_frame _ _ _ _ _ _ _ H) as (_ & Hctx & Hex & Happ & -> & _).
  apply make_conn_data_loop_Some in H as (d & Hd & Hfree & Hcd).
  exists d. split_and!; try done.
  destruct s, s'; simpl in *. by subst.
Qed.

(** X1: an incoming connection that finds a free slot.  In a state
    reached from [main], with slot [j] the first free one, the handler
    binds slot [j] to the new connection and leaves the other slots
    alone, records slot [j] as the context of the connection and leaves
    the other contexts alone, clears [first_idle_time] and
    [try_accept_time], leaves the counters alone, and accepts the
    connection; the timer is armed (5000 ms, deadline [now + 5000])
    exactly when the old deadline is before [now]. *)
Theorem X1_accept_binds_first_free_slot e s j d :
  reachable s →
  event_type e = PN_LISTENER_ACCEPT →
  conn_data s !! j = Some d →
  connection d = NULL →
  all_bound (take j (conn_data s)) →
  let c := new_raw_connection e in
  let late := wake_conn_time (app s) <? now_64 e in
  ∃ s' t,
    handle e s = Ok (true, s', t) ∧
    conn_data s' !! j = Some (with_connection c d) ∧
    (∀ i, i ≠ j → conn_data s' !! i = conn_data s !! i) ∧
    contexts s' !! c = Some j ∧
    (∀ c', c' ≠ c → contexts s' !! c' = contexts s !! c') ∧
    first_idle_time (app s') = 0 ∧ try_accept_time (app s') = 0 ∧
    connects (app s') = connects (app s) ∧
    disconnects (app s') = disconnects (app s) ∧
    listener (app s') = listener (app s) ∧
    wake_conn_time (app s') =
      (if late then to_int64 (now_64 e + 5000) else wake_conn_time (app s)) ∧
    t = (if late then [pn_proactor_set_timeout 5000] else []) ++
        [pn_listener_raw_accept (event_listener e) c].
Proof.
  intros ([Hlen _] & H0 & _)%reachable_ok Ht Hd Hfree Hall c late.
  pose proof (handle_accept_free e s j d Ht Hlen Hd Hfree Hall) as H.
  simpl in H. rewrite H0 in H. simpl in H.
  eexists _, _. split; [exact H |]. simpl. split_and!; try done.
  - apply list_lookup_insert_eq. by eapply lookup_lt_Some.
  - intros i Hi. by apply list_lookup_insert_ne.
  - apply lookup_insert_eq.
  - intros c' Hc'. rewrite lookup_insert_ne by done. by apply lookup_delete_ne.
Qed.

Lemma slot_freed_state_reachable : reachable slot_freed_state.
Proof.
  exists 100,
    (take 5 six_accepts ++ take 5 (drop 6 six_connections_come_and_go) ++
     [disconnected_event 2 None]).
  eexists. vm_compute. reflexivity.
Qed.

Lemma X1_witness :
  ∃ s' t,
    handle (accept_event 100 7 2000) slot_freed_state = Ok (true, s', t) ∧
    conn_data s' !! 1%nat = Some (mk_conn_data 7 0 0 0) ∧
    contexts s' !! 7 = Some 1%nat ∧
    t = [pn_listener_raw_accept 100 7].
Proof.
  destruct (X1_accept_binds_first_free_slot (accept_event 100 7 2000)
              slot_freed_state 1 (mk_conn_data NULL 0 0 0))
    as (s' & t & H & Hj & _ & Hc & _ & _ & _ & _ & _ & _ & _ & Ht);
    [apply slot_freed_state_reachable | reflexivity | reflexivity | reflexivity
    | by repeat constructor |].
  by exists s', t.
Defined.

(** X2: every incoming connection is acknowledged.  In a state reached
    from [main] the handler of an incoming connection always returns
    true and calls [pn_listener_raw_accept] exactly once, on the listener
    of the event and the new connection; it closes that connection
    exactly when all slots are bound. *)
Theorem X2_every_accept_is_acknowledged_once e s :
  reachable s →
  event_type e = PN_LISTENER_ACCEPT →
  let c := new_raw_connection e in
  ∃ s' t,
    handle e s = Ok (true, s', t) ∧
    filter (fun a => is_raw_accept a = true) t =
      [pn_listener_raw_accept (event_listener e) c] ∧
    (pn_raw_connection_close c ∈ t ↔ all_bound (conn_data s)).
Proof.
  intros Hreach Ht c.
  pose proof (reachable_ok _ Hreach) as ([Hlen _] & H0 & _).
  destruct (first_free_slot (conn_data s)) as [Hall | (j & d & Hd & Hfree & Hall)].
  - pose proof (handle_accept_full e s Ht Hlen Hall) as H. rewrite H0 in H.
    eexists _, _. split; [exact H |]. split; [reflexivity |].
    split; [done |]. intros _. do 2 apply list_elem_of_further. apply list_elem_of_here.
  - pose proof (handle_accept_free e s j d Ht Hlen Hd Hfree Hall) as H.
    simpl in H. rewrite H0 in H.
    eexists _, _. split; [exact H |]. split.
    + by destruct (wake_conn_time (app s) <? now_64 e).
    + split.
      * intros Hin. exfalso.
        destruct (wake_conn_time (app s) <? now_64 e); simpl in Hin;
          repeat (apply elem_of_cons in Hin as [[=] | Hin]); by apply elem_of_nil in Hin.
      * intros Hb. exfalso. unfold all_bound in Hb.
        rewrite Forall_lookup in Hb. by apply (Hb j d Hd).
Qed.

Lemma X2_witness :
  ∃ s' t,
    handle (accept_event 100 6 1000) busy_state = Ok (true, s', t) ∧
    filter (fun a => is_raw_accept a = true) t = [pn_listener_raw_accept 100 6].
Proof.
  destruct (X2_every_accept_is_acknowledged_once (accept_event 100 6 1000) busy_state)
    as (s' & t & H & Hf & _); [apply busy_state_reachable | reflexivity |].
  by exists s', t.
Defined.

(** X3: reserving a slot and releasing it again is a round trip.  When
    [make_conn_data] returns slot [j], [free_conn_data] on that slot
    gives back the state from before the reservation, counters and
    timestamps of the slot included. *)
Theorem X3_reserve_then_release_restores_the_state c s j s1 t :
  make_conn_data c s = Ok (Some j, s1, t) →
  free_conn_data (Some j) s1 = Ok (tt, s, []).
Proof.
  intros (d & Hd & Hfree & -> & ->)%make_conn_data_Some.
  assert (Hj : (j < length (conn_data s))%nat) by (by eapply lookup_lt_Some).
  unfold free_conn_data.
  erewrite store_eq by (simpl; by apply list_lookup_insert_eq).
  rewrite set_conn_data_twice, with_connection_release by done.
  rewrite set_conn_data_id; [done |].
  rewrite list_insert_insert_eq. by apply list_insert_id.
Qed.

Lemma X3_witness :
  ∃ s1,
    make_conn_data 7 slot_freed_state = Ok (Some 1%nat, s1, []) ∧
    free_conn_data (Some 1%nat) s1 = Ok (tt, slot_freed_state, []).
Proof.
  eexists. split; [vm_compute; reflexivity |].
  apply (X3_reserve_then_release_restores_the_state 7 slot_freed_state 1 _ []).
  vm_compute. reflexivity.
Defined.

(** X4: no slot is given out twice.  Two reservations in a row, the
    first for a non-null connection, return different slots, and the
    first connection still owns its slot after the second reservation. *)
Theorem X4_two_reservations_get_distinct_slots c1 c2 s i s1 t1 j s2 t2 :
  c1 ≠ NULL →
  make_conn_data c1 s = Ok (Some i, s1, t1) →
  make_conn_data c2 s1 = Ok (Some j, s2, t2) →
  i ≠ j ∧
  (∃ d, conn_data s2 !! i = Some d ∧ connection d = c1) ∧
  (∃ d, conn_data s2 !! j = Some d ∧ connection d = c2).
Proof.
  intros Hc1 (d1 & Hd1 & Hfree1 & -> & ->)%make_conn_data_Some
              (d2 & Hd2 & Hfree2 & -> & ->)%make_conn_data_Some.
  assert (Hi : (i < length (conn_data s))%nat) by (by eapply lookup_lt_Some).
  simpl in Hd2.
  assert (Hij : i ≠ j).
  { intros <-. rewrite list_lookup_insert_eq in Hd2 by done.
    injection Hd2 as <-. simpl in Hfree2. done. }
  split_and!; [done | |]; simpl.
  - exists (with_connection c1 d1). split; [| done].
    rewrite list_lookup_insert_ne by done. by apply list_lookup_insert_eq.
  - exists (with_connection c2 d2). split; [| done].
    apply list_lookup_insert_eq. apply lookup_lt_Some in Hd2. done.
Qed.

Lemma X4_witness :
  ∃ s1 s2,
    make_conn_data 7 (initial_state 100) = Ok (Some 0%nat, s1, []) ∧
    make_conn_data 8 s1 = Ok (Some 1%nat, s2, []) ∧
    0%nat ≠ 1%nat.
Proof.
  eexists _, _. split; [vm_compute; reflexivity |]. split; [vm_compute; reflexivity |].
  pose proof (X4_two_reservations_get_distinct_slots 7 8 (initial_state 100)
                0%nat _ [] 1%nat _ [] ltac:(done)
                ltac:(vm_compute; reflexivity) ltac:(vm_compute; reflexivity))
    as [Hne _].
  exact Hne.
Defined.

(** ** Slots and contexts from one event to the next *)

(** X5: a bound slot keeps its connection until that connection
    disconnects.  Whatever event is handled, a slot bound before it is
    afterwards bound to the same connection, or it is free and the event
    was the disconnect of a connection whose context is this slot. *)
Theorem X5_bound_slot_released_only_by_its_disconnect e s b s' t i d :
  handle e s = Ok (b, s', t) →
  conn_data s !! i = Some d →
  connection d ≠ NULL →
  ∃ d', conn_data s' !! i = Some d' ∧
    (connection d' = connection d ∨
     (connection d' = NULL ∧
      event_type e = PN_RAW_CONNECTION_DISCONNECTED ∧
      contexts s !! event_raw_connection e = Some i)).
Proof.
  intros H Hd Hb.
  assert (Hi : (i < length (conn_data s))%nat) by (by eapply lookup_lt_Some).
  destruct (handle_transition _ _ _ _ _ H)
    as [(_ & -> & _) | [(_ & -> & _) | [(_ & j & dj & Hj & Hfree & -> & _)
       | [(Ht & _ & _ & j & dj & Hc & Hj & ->) | (_ & _ & _ & j & dj & Hc & Hj & ->)]]]].
  - exists d. by split; [| left].
  - exists d. by split; [| left].
  - destruct (decide (j = i)) as [-> | Hne]; [congruence |].
    exists d. rewrite list_lookup_insert_ne by done. by split; [| left].
  - destruct (decide (j = i)) as [-> | Hne].
    + exists (with_connection NULL d). rewrite list_lookup_insert_eq by done.
      split; [congruence |]. right. by split_and!.
    + exists d. rewrite list_lookup_insert_ne by done. by split; [| left].
  - destruct (decide (j = i)) as [-> | Hne].
    + eexists. rewrite list_lookup_insert_eq by done. split; [done |]. left.
      destruct (count_batches_fields (taken e) (with_last_recv_time (now_64 e) dj)) as [-> _].
      simpl. congruence.
    + exists d. rewrite list_lookup_insert_ne by done. by split; [| left].
Qed.

Lemma X5_witness :
  ∃ s' t d',
    handle (disconnected_event 3 None) busy_state = Ok (true, s', t) ∧
    conn_data s' !! 0%nat = Some d' ∧ connection d' = 1.
Proof.
  eexists _, _. 
  destruct (X5_bound_slot_released_only_by_its_disconnect
              (disconnected_event 3 None) busy_state true _ _ 0 (mk_conn_data 1 0 0 0)
              ltac:(vm_compute; reflexivity) ltac:(reflexivity) ltac:(done))
    as (d' & Hd' & [Hsame | (_ & _ & Hctx)]).
  - exists d'. split; [vm_compute; reflexivity |]. by split.
  - vm_compute in Hctx. discriminate.
Defined.

(** How many slots are bound after one entry of the table changed. *)
Lemma live_connections_insert (tb : list conn_data_t) j d x :
  tb !! j = Some d →
  (length (live_connections (<[j := x]> tb)) + (if decide (connection d ≠ NULL) then 1 else 0) =
   length (live_connections tb) + (if decide (connection x ≠ NULL) then 1 else 0))%nat.
Proof.
  intros Hj.
  assert (Hlt : (j < length tb)%nat) by (by eapply lookup_lt_Some).
  rewrite insert_take_drop by done.
  rewrite <- (take_drop_middle tb j d Hj) at 3.
  unfold live_connections.
  rewrite !fmap_app, !fmap_cons, !filter_app, !filter_cons, !length_app.
  destruct (decide (connection d ≠ NULL)), (decide (connection x ≠ NULL)); simpl; lia.
Qed.

(** X6: the number of bound slots moves by at most one per event.  It
    goes up only on an incoming connection and down only on a disconnect
    event; every other event, and a data-arrival event in particular,
    leaves it as it is. *)
Theorem X6_bound_slots_change_by_one e s b s' t :
  handle e s = Ok (b, s', t) →
  bound_slots s' = bound_slots s ∨
  (event_type e = PN_LISTENER_ACCEPT ∧ new_raw_connection e ≠ NULL ∧
   bound_slots s' = S (bound_slots s)) ∨
  (event_type e = PN_RAW_CONNECTION_DISCONNECTED ∧
   S (bound_slots s') = bound_slots s).
Proof.
  intros H. unfold bound_slots.
  destruct (handle_transition _ _ _ _ _ H)
    as [(_ & -> & _) | [(_ & -> & _) | [(Ht & j & dj & Hj & Hfree & -> & _)
       | [(Ht & _ & _ & j & dj & Hc & Hj & ->) | (_ & _ & _ & j & dj & Hc & Hj & ->)]]]].
  - by left.
  - by left.
  - pose proof (live_connections_insert _ j dj (with_connection (new_raw_connection e) dj) Hj)
      as Hlen.
    simpl in Hlen. rewrite Hfree in Hlen.
    destruct (decide (NULL ≠ NULL)); [done |].
    destruct (decide (new_raw_connection e ≠ NULL)).
    + right. left. split_and!; try done. lia.
    + left. lia.
  - pose proof (live_connections_insert _ j dj (with_connection NULL dj) Hj) as Hlen.
    simpl in Hlen.
    destruct (decide (NULL ≠ NULL)); [done |].
    destruct (decide (connection dj ≠ NULL)).
    + right. right. split; [done |]. lia.
    + left. lia.
  - pose proof (live_connections_insert _ j dj
                  (count_batches (with_last_recv_time (now_64 e) dj) (taken e)) Hj) as Hlen.
    destruct (count_batches_fields (taken e) (with_last_recv_time (now_64 e) dj)) as [Hconn _].
    rewrite Hconn in Hlen. simpl in Hlen.
    left. destruct (decide (connection dj ≠ NULL)); lia.
Qed.

Lemma X6_witness :
  ∃ s' t,
    handle (disconnected_event 3 None) busy_state = Ok (true, s', t) ∧
    S (bound_slots s') = bound_slots busy_state.
Proof.
  eexists _, _. split; [vm_compute; reflexivity |].
  destruct (X6_bound_slots_change_by_one (disconnected_event 3 None) busy_state true _ _
              ltac:(vm_compute; reflexivity))
    as [Hsame | [(Ht & _) | (_ & Hdown)]].
  - vm_compute in Hsame. discriminate.
  - discriminate.
  - exact Hdown.
Defined.

(** X7: contexts are written at accept time only.  An event that is
    not an incoming connection leaves the context of every connection as
    it is: the disconnect handler frees the slot but does not clear the
    context.  An incoming connection changes the context of the new
    connection only. *)
Theorem X7_contexts_change_only_on_accept e s b s' t :
  handle e s = Ok (b, s', t) →
  (event_type e ≠ PN_LISTENER_ACCEPT → contexts s' = contexts s) ∧
  (∀ c, c ≠ new_raw_connection e → contexts s' !! c = contexts s !! c).
Proof.
  intros H.
  destruct (handle_transition _ _ _ _ _ H)
    as [(Ht & _ & ->) | [(Ht & _ & ->) | [(Ht & j & dj & _ & _ & _ & ->)
       | [(Ht & _ & -> & _) | (Ht & _ & -> & _)]]]];
    (split; [try done; try (intros; congruence) |]); intros c Hc; try done.
  - by apply lookup_delete_ne.
  - rewrite lookup_insert_ne by done. by apply lookup_delete_ne.
Qed.

Lemma X7_witness :
  ∃ s' t,
    handle (disconnected_event 3 None) busy_state = Ok (true, s', t) ∧
    contexts s' = contexts busy_state.
Proof.
  eexists _, _. split; [vm_compute; reflexivity |].
  destruct (X7_contexts_change_only_on_accept (disconnected_event 3 None) busy_state
              true _ _ ltac:(vm_compute; reflexivity)) as [Hsame _].
  apply Hsame. discriminate.
Defined.

(** ** Written buffers *)

(** X8: what happens to written buffers.  On a write-completion event
    of a connection, with or without a slot, the state is untouched and
    the calls are, batch after batch up to the first empty one: the whole
    batch handed back for reading when the read direction is open, else
    the memory of the buffers before the first one with a null [bytes]
    freed.  Nothing is written to the output and nothing is handed to the
    write side. *)
Theorem X8_written_buffers_recycled_or_freed e s :
  event_type e = PN_RAW_CONNECTION_WRITTEN →
  event_raw_connection e ≠ NULL →
  let c := event_raw_connection e in
  let t := flat_map (written_disposition c) (handled (taken e)) in
  handle e s = Ok (exit_code s =? 0, s, t) ∧
  (∀ b, b ∈ handled (taken e) →
     (read_closed b = false →
      pn_raw_connection_give_read_buffers c (taken_buffers b) ∈ t) ∧
     (read_closed b = true →
      ∀ buf, buf ∈ visited (taken_buffers b) → free (buf_bytes buf) ∈ t)) ∧
  Forall (fun a => (∃ b, b ∈ handled (taken e) ∧ read_closed b = false ∧
                         a = pn_raw_connection_give_read_buffers c (taken_buffers b)) ∨
                   (∃ b buf, b ∈ handled (taken e) ∧ read_closed b = true ∧
                             buf ∈ visited (taken_buffers b) ∧ a = free (buf_bytes buf))) t.
Proof.
  intros Ht Hc c t.
  pose proof (receive_written e s Ht) as Hr.
  apply handle_receive_Ok in Hr; [| by rewrite Ht | done].
  split; [exact Hr |]. subst t. split.
  - intros b Hb.
    assert (Hin : ∀ a, a ∈ written_disposition c b →
                       a ∈ flat_map (written_disposition c) (handled (taken e))).
    { intros a Ha. apply list_elem_of_In, in_flat_map. exists b.
      split; by apply list_elem_of_In. }
    split.
    + intros Hrd. apply Hin. unfold written_disposition. rewrite Hrd.
      apply list_elem_of_here.
    + intros Hrd buf Hbuf. apply Hin. unfold written_disposition. rewrite Hrd. simpl.
      unfold freed. apply list_elem_of_In, in_map_iff. exists buf.
      split; [done | by apply list_elem_of_In].
  - apply Forall_forall. intros a Ha.
    apply list_elem_of_In, in_flat_map in Ha as (b & Hb & Ha).
    apply list_elem_of_In in Hb. unfold written_disposition in Ha.
    destruct (read_closed b) eqn:Hrd; simpl in Ha.
    + right. unfold freed in Ha. apply in_map_iff in Ha as (buf & <- & Hbuf).
      exists b, buf. split_and!; try done. by apply list_elem_of_In.
    + left. destruct Ha as [<- | []]. exists b. by split_and!.
Qed.

Lemma X8_witness :
  handle (written_event 6 written_batches) busy_state =
    Ok (true, busy_state,
        [pn_raw_connection_give_read_buffers 6
           [mk_raw_buffer 0 65536 1024 4 0; mk_raw_buffer 0 66560 1024 2 0];
         free 67584]).
Proof.
  apply (X8_written_buffers_recycled_or_freed (written_event 6 written_batches) busy_state);
    [reflexivity | done].
Defined.

(** ** The counters of a slot *)

Lemma to_int_mod x : to_int x mod 2 ^ 32 = x mod 2 ^ 32.
Proof.
  unfold to_int, wrap. change (32 - 1) with 31.
  rewrite Zminus_mod_idemp_l. f_equal. lia.
Qed.

Lemma int_range_mod_eq x y :
  int_range x → int_range y → x mod 2 ^ 32 = y mod 2 ^ 32 → x = y.
Proof.
  intros Hx Hy H.
  rewrite <- (to_int_id x Hx), <- (to_int_id y Hy).
  unfold to_int, wrap. f_equal.
  rewrite <- (Zplus_mod_idemp_l x), <- (Zplus_mod_idemp_l y). by rewrite H.
Qed.

Lemma count_bytes_spec buffs : ∀ n,
  int_range n →
  int_range (count_bytes n buffs) ∧
  count_bytes n buffs mod 2 ^ 32 =
    (n + foldr (fun buf m => buf_size buf + m) 0 (visited buffs)) mod 2 ^ 32.
Proof.
  unfold count_bytes.
  induction (visited buffs) as [| b l IH]; intros n Hn; simpl.
  - split; [done |]. f_equal. lia.
  - destruct (IH (to_int (n + buf_size b)) (to_int_in_range _)) as [Hr Hm].
    split; [done |]. rewrite Hm.
    rewrite <- Zplus_mod_idemp_l, to_int_mod, Zplus_mod_idemp_l. f_equal. lia.
Qed.

Lemma count_batches_spec batches : ∀ d,
  int_range (bytes d) → int_range (buffers d) →
  let d' := count_batches d batches in
  int_range (bytes d') ∧ int_range (buffers d') ∧
  bytes d' mod 2 ^ 32 = (bytes d + bytes_counted batches) mod 2 ^ 32 ∧
  buffers d' mod 2 ^ 32 = (buffers d + buffers_taken batches) mod 2 ^ 32.
Proof.
  unfold count_batches, bytes_counted, buffers_taken.
  induction (handled batches) as [| b l IH]; intros d Hby Hbu; simpl.
  - split_and!; try done; f_equal; lia.
  - destruct (count_bytes_spec (taken_buffers b) (bytes d) Hby) as [Hr Hm].
    destruct (IH (count_batch d b)) as (Hr1 & Hr2 & Hm1 & Hm2);
      [done | apply to_int_in_range |].
    split_and!; try done.
    + rewrite Hm1. simpl.
      rewrite <- Zplus_mod_idemp_l, Hm, Zplus_mod_idemp_l. f_equal. lia.
    + rewrite Hm2. simpl.
      rewrite <- Zplus_mod_idemp_l, to_int_mod, Zplus_mod_idemp_l. f_equal. lia.
Qed.

(** X9: what a data-arrival event records in the slot.  The slot of the
    connection keeps its connection, gets [now] as [last_recv_time], and
    its counters grow by the number of buffers taken and by the sizes of
    the buffers whose payload was delivered, as long as the sums fit an
    [int]; the other slots, the contexts, the global counters and the
    exit code are untouched. *)
Theorem X9_read_updates_the_slot_counters e s i d :
  event_type e = PN_RAW_CONNECTION_READ →
  event_raw_connection e ≠ NULL →
  contexts s !! event_raw_connection e = Some i →
  conn_data s !! i = Some d →
  int_range (bytes d) → int_range (buffers d) →
  int_range (bytes d + bytes_counted (taken e)) →
  int_range (buffers d + buffers_taken (taken e)) →
  ∃ s' t,
    handle e s = Ok (exit_code s =? 0, s', t) ∧
    conn_data s' !! i =
      Some (mk_conn_data (connection d) (now_64 e)
              (bytes d + bytes_counted (taken e))
              (buffers d + buffers_taken (taken e))) ∧
    (∀ j, j ≠ i → conn_data s' !! j = conn_data s !! j) ∧
    app s' = app s ∧ contexts s' = contexts s ∧ exit_code s' = exit_code s.
Proof.
  intros Ht Hc Hctx Hd Hby Hbu Hby' Hbu'.
  pose proof (receive_read_bound e s i d Ht Hctx Hd) as Hr.
  apply handle_receive_Ok in Hr; [| by rewrite Ht | done].
  eexists _, _. split; [exact Hr |]. simpl.
  assert (Hi : (i < length (conn_data s))%nat) by (by eapply lookup_lt_Some).
  split_and!; try done.
  - rewrite list_lookup_insert_eq by done. f_equal.
    set (d0 := with_last_recv_time (now_64 e) d).
    destruct (count_batches_fields (taken e) d0) as [Hconn Htime].
    destruct (count_batches_spec (taken e) d0 Hby Hbu) as (Hr1 & Hr2 & Hm1 & Hm2).
    destruct (count_batches d0 (taken e)) as [c' l' by' bu'] eqn:Hcb.
    simpl in *. subst c' l'. f_equal; by apply int_range_mod_eq.
  - intros j Hj. by apply list_lookup_insert_ne.
Qed.

Lemma X9_witness :
  ∃ s' t,
    handle (read_event 1 1500 [ping; ping]) busy_state = Ok (true, s', t) ∧
    conn_data s' !! 0%nat = Some (mk_conn_data 1 1500 8 2).
Proof.
  destruct (X9_read_updates_the_slot_counters (read_event 1 1500 [ping; ping]) busy_state
              0 (mk_conn_data 1 0 0 0))
    as (s' & t & H & Hs & _);
    [reflexivity | done | reflexivity | reflexivity
    | unfold int_range; simpl; lia | unfold int_range; simpl; lia
    | unfold int_range; vm_compute; split; [discriminate | reflexivity]
    | unfold int_range; vm_compute; split; [discriminate | reflexivity] |].
  by exists s', t.
Defined.

(** ** The timer *)

(** X10: the timer is armed again on every timer event but the one
    that shuts the listener down.  In a state reached from [main] the
    timer handler returns true and leaves the slot table, the contexts
    and the counters alone.  When the shutdown test holds it closes the
    listener, changes nothing and does not arm the timer; otherwise its
    last call arms the timer, with 20000 ms when [connects] equals
    [disconnects] and 5000 ms when not, and it does not close the
    listener.  The first idle timer event records [now] as
    [first_idle_time]. *)
Theorem X10_timer_rearmed_unless_shutdown e s :
  reachable s →
  event_type e = PN_PROACTOR_TIMEOUT →
  ∃ s' t,
    handle e s = Ok (true, s', t) ∧
    conn_data s' = conn_data s ∧ contexts s' = contexts s ∧
    connects (app s') = connects (app s) ∧
    disconnects (app s') = disconnects (app s) ∧
    (if shutdown_due (app s) (now_64 e)
     then s' = s ∧ t = [pn_listener_close (listener (app s))]
     else last t = Some (pn_proactor_set_timeout (chosen_timeout (app s))) ∧
          Forall (fun a => is_listener_close a = false) t) ∧
    (connects (app s) = disconnects (app s) → first_idle_time (app s) = 0 →
     first_idle_time (app s') = now_64 e).
Proof.
  intros ([Hlen _] & H0 & Hc & Hd)%reachable_ok Ht.
  unfold shutdown_due, chosen_timeout.
  destruct (decide (to_int (connects (app s) - disconnects (app s)) = 0)) as [Hidle | Hbusy].
  - rewrite Hidle. simpl.
    destruct (decide (first_idle_time (app s) = 0)) as [H1 | H1].
    + rewrite handle_timeout_idle_start, H0 by done. rewrite H1. simpl.
      eexists _, _. split; [reflexivity |]. split_and!; try done.
      by repeat constructor.
    + apply Z.eqb_neq in H1 as H1'. rewrite H1'. simpl.
      destruct (Z.leb_spec (to_int64 (first_idle_time (app s) + 20000)) (now_64 e)).
      * rewrite handle_timeout_idle_shutdown, H0 by done.
        eexists _, _. split; [reflexivity |]. by split_and!.
      * rewrite handle_timeout_idle_wait, H0 by done.
        eexists _, _. split; [reflexivity |]. split_and!; try done.
        by repeat constructor.
  - apply Z.eqb_neq in Hbusy as Hbusy'. rewrite Hbusy'. simpl.
    assert (Hne : connects (app s) ≠ disconnects (app s)).
    { intros Heq. apply Hbusy. by rewrite Heq, Z.sub_diag. }
    destruct (Z_le_gt_dec (wake_conn_time (app s)) (now_64 e)).
    + rewrite handle_timeout_sweep, H0 by done.
      eexists _, _. split; [reflexivity |]. split_and!; try done.
      * by rewrite last_snoc.
      * apply Forall_app. split; [| by repeat constructor].
        apply Forall_fmap, Forall_true. done.
    + rewrite handle_timeout_active, H0 by (done || lia).
      eexists _, _. split; [reflexivity |]. split_and!; try done.
      by repeat constructor.
Qed.

Lemma drained_state_reachable : reachable drained_state.
Proof.
  exists 100,
    (take 5 six_accepts ++ take 5 (drop 6 six_connections_come_and_go) ++
     map (fun c => disconnected_event c None) [1; 2; 3; 4; 5] ++
     [timeout_event 30000]).
  eexists. vm_compute. reflexivity.
Qed.

Lemma X10_witness :
  ∃ s' t,
    handle (timeout_event 40000) drained_state = Ok (true, s', t) ∧
    last t = Some (pn_proactor_set_timeout 20000).
Proof.
  destruct (X10_timer_rearmed_unless_shutdown (timeout_event 40000) drained_state
              drained_state_reachable ltac:(reflexivity))
    as (s' & t & H & _ & _ & _ & _ & Hlast & _).
  exists s', t. split; [exact H |].
  change (shutdown_due (app drained_state) (now_64 (timeout_event 40000)))
    with false in Hlast.
  exact (proj1 Hlast).
Defined.

(** ** The listener *)

(** X11: when the listener has closed.  The handler clears
    [app->listener] before it looks at the condition, so the
    [pn_listener_close] of [close_all] is never reached: the handler
    never closes the listener.  Nothing else in [app] changes, and the
    slot table and the contexts are untouched.  Without a condition the
    handler makes no call, leaves the exit code and returns as the exit
    code says.  With a condition it prints the condition, closes the
    connection of the event if there is one, and makes no other call; it
    sets the exit code to 1 and returns false. *)
Theorem X11_listener_close_clears_the_handle e s :
  event_type e = PN_LISTENER_CLOSE →
  ∃ s' t,
    handle e s = Ok (negb (bool_decide (is_Some (condition e))) && (exit_code s =? 0), s', t) ∧
    listener (app s') = NULL ∧
    app s' = with_listener NULL (app s) ∧
    exit_code s' = (if bool_decide (is_Some (condition e)) then 1 else exit_code s) ∧
    conn_data s' = conn_data s ∧ contexts s' = contexts s ∧
    t = match condition e with
        | Some (name, description) =>
            fprintf_stderr_condition PN_LISTENER_CLOSE name description ::
            (if is_null (event_raw_connection e) then []
             else [pn_raw_connection_close (event_raw_connection e)])
        | None => []
        end ∧
    Forall (fun a => is_listener_close a = false) t ∧
    (condition e = None → t = []) ∧
    (is_Some (condition e) → event_raw_connection e ≠ NULL →
     pn_raw_connection_close (event_raw_connection e) ∈ t).
Proof.
  intros Ht. destruct (condition e) as [[n d] |] eqn:Hc.
  - rewrite (handle_listener_close_error e s n d Ht Hc).
    eexists _, _. split; [reflexivity |]. simpl. split_and!; try done.
    + destruct (is_null (event_raw_connection e)); by repeat constructor.
    + intros _ Hne. rewrite (is_null_false _ Hne).
      apply list_elem_of_further, list_elem_of_here.
  - rewrite (handle_listener_close_clean e s Ht Hc).
    eexists _, _. split; [reflexivity |]. simpl. by split_and!.
Qed.

Lemma X11_witness :
  ∃ s' t,
    handle (listener_close_event 100 (Some ("proton:io", "address in use"))) busy_state
      = Ok (false, s', t) ∧
    listener (app s') = NULL ∧ exit_code s' = 1.
Proof.
  destruct (X11_listener_close_clears_the_handle
              (listener_close_event 100 (Some ("proton:io", "address in use"))) busy_state)
    as (s' & t & H & Hl & _ & Hx & _); [reflexivity |].
  by exists s', t.
Defined.

(** ** Undefined behaviour along a run *)

Lemma handle_Undefined e s u :
  table_ok s →
  handle e s = Undefined u →
  event_raw_connection e ≠ NULL ∧
  contexts s !! event_raw_connection e = None ∧
  ((event_type e = PN_RAW_CONNECTION_READ ∧ u = NullDereference) ∨
   (event_type e = PN_RAW_CONNECTION_WAKE ∧ u = NullPointerDifference)).
Proof.
  intros Hok H.
  assert (Hdef : ¬ (event_raw_connection e = NULL ∨
                    is_Some (contexts s !! event_raw_connection e) ∨
                    (event_type e ≠ PN_RAW_CONNECTION_READ ∧
                     event_type e ≠ PN_RAW_CONNECTION_WAKE))).
  { intros Hpre. destruct (handle_defined e s Hok Hpre) as (b & s' & t & H').
    congruence. }
  assert (Hc : event_raw_connection e ≠ NULL) by tauto.
  destruct (contexts s !! event_raw_connection e) as [i |] eqn:Hctx.
  { exfalso. apply Hdef. right. left. eauto. }
  split_and!; try done.
  destruct (decide (event_type e = PN_RAW_CONNECTION_READ)) as [Hr | Hr].
  - left. split; [done |].
    rewrite (handle_receive_Undefined e s NullDereference) in H;
      [congruence | by rewrite Hr | done | by apply receive_read_unbound].
  - destruct (decide (event_type e = PN_RAW_CONNECTION_WAKE)) as [Hw | Hw]; [| tauto].
    right. split; [done |].
    rewrite (handle_receive_Undefined e s NullPointerDifference) in H;
      [congruence | by rewrite Hw | done | by apply receive_wake_unbound].
Qed.

(** Away from the ends of the integer ranges the two readings agree. *)
Lemma handle_strict_in_range e s :
  0 <= connects (app s) < 2 ^ 31 - 1 →
  0 <= disconnects (app s) < 2 ^ 31 - 1 →
  0 <= first_idle_time (app s) < 2 ^ 62 →
  0 <= now_64 e < 2 ^ 62 →
  handle_strict e s = handle e s.
Proof.
  intros Hc Hd Hf Hn. unfold handle_strict.
  assert (Hov : signed_overflow e s = false); [| by rewrite Hov].
  unfold signed_overflow, in_int, in_int64.
  assert (H1 : (- 2 ^ 63 <=? now_64 e + 5000) && (now_64 e + 5000 <? 2 ^ 63) = true)
    by (apply andb_true_intro; split; [apply Z.leb_le | apply Z.ltb_lt]; lia).
  assert (H2 : (- 2 ^ 63 <=? first_idle_time (app s) + 20000) &&
               (first_idle_time (app s) + 20000 <? 2 ^ 63) = true)
    by (apply andb_true_intro; split; [apply Z.leb_le | apply Z.ltb_lt]; lia).
  assert (H3 : (- 2 ^ 31 <=? connects (app s) - disconnects (app s)) &&
               (connects (app s) - disconnects (app s) <? 2 ^ 31) = true)
    by (apply andb_true_intro; split; [apply Z.leb_le | apply Z.ltb_lt]; lia).
  assert (H4 : (- 2 ^ 31 <=? connects (app s) + 1) && (connects (app s) + 1 <? 2 ^ 31) = true)
    by (apply andb_true_intro; split; [apply Z.leb_le | apply Z.ltb_lt]; lia).
  assert (H5 : (- 2 ^ 31 <=? disconnects (app s) + 1) &&
               (disconnects (app s) + 1 <? 2 ^ 31) = true)
    by (apply andb_true_intro; split; [apply Z.leb_le | apply Z.ltb_lt]; lia).
  rewrite H1, H2, H3, H4, H5. simpl.
  destruct (event_type e); try done.
  - destruct ((n <- pn_raw_connection (new_raw_connection e);; make_conn_data n) s)
      as [[[[j |] s1] t1] | u]; try done. apply andb_false_r.
  - destruct (connects (app s) - disconnects (app s) =? 0); apply andb_false_r.
  - apply andb_false_r.
  - apply andb_false_r.
Qed.

Lemma run_strict_Ok events : ∀ s r,
  run_strict events s = Ok r → run events s = Ok r.
Proof.
  induction events as [| e rest IH]; intros s r H; simpl in *; [done |].
  unfold bind, handle_strict in *.
  destruct (signed_overflow e s); [done |].
  destruct (handle e s) as [[[b1 s1] t1] | u]; [| done].
  destruct b1; [| done].
  destruct (run_strict rest s1) as [[[b2 s2] t2] | u] eqn:Hrest; [| done].
  by rewrite (IH _ _ Hrest).
Qed.

Lemma run_strict_Undefined events : ∀ s u,
  run_strict events s = Undefined u →
  ∃ pre e post s1 t1,
    events = pre ++ e :: post ∧ run_strict pre s = Ok (false, s1, t1) ∧
    handle_strict e s1 = Undefined u.
Proof.
  induction events as [| e rest IH]; intros s u H; simpl in H; [done |].
  destruct (handle_strict e s) as [[[b1 s1] t1] | u1] eqn:Hh.
  - erewrite bind_eq in H by exact Hh. destruct b1; [| done].
    destruct (run_strict rest s1) as [[[b2 s2] t2] | u2] eqn:Hrest; [done |].
    injection H as ->.
    destruct (IH s1 u Hrest) as (pre & e' & post & s' & t' & -> & Hpre & He').
    exists (e :: pre), e', post, s', (t1 ++ t'). split_and!; try done.
    simpl. erewrite bind_eq by exact Hh. cbv beta iota. by rewrite Hpre.
  - rewrite (bind_undefined _ _ _ u1 Hh) in H. injection H as ->.
    by exists [], e, rest, s, [].
Qed.

(** X12: the only undefined behaviour of a run.  With signed overflow
    read as undefined, a run started by [main] never indexes outside
    [conn_data].  If it is undefined at all, then either at an event
    whose handler evaluates a signed operation that overflows, or at a
    data-arrival or wake event of a connection that has no context at
    that moment: the first writes through the null context, the second
    subtracts the table's address from it.  Up to that event the run is
    the run of the compiled program. *)
Theorem X12_runs_fail_only_on_overflow_or_events_without_slot l events u :
  run_strict events (initial_state l) = Undefined u →
  u ≠ OutOfBounds ∧
  ∃ pre e post s t,
    events = pre ++ e :: post ∧
    run_strict pre (initial_state l) = Ok (false, s, t) ∧
    run pre (initial_state l) = Ok (false, s, t) ∧
    ((u = SignedOverflow ∧ signed_overflow e s = true) ∨
     (signed_overflow e s = false ∧
      event_raw_connection e ≠ NULL ∧
      contexts s !! event_raw_connection e = None ∧
      ((event_type e = PN_RAW_CONNECTION_READ ∧ u = NullDereference) ∨
       (event_type e = PN_RAW_CONNECTION_WAKE ∧ u = NullPointerDifference)))).
Proof.
  intros (pre & e & post & s & t & -> & Hpre & He)%run_strict_Undefined.
  pose proof (run_strict_Ok _ _ _ Hpre) as Hpre'.
  pose proof (run_table_ok _ _ _ _ _ (initial_table_ok l) Hpre') as Hok.
  unfold handle_strict in He.
  destruct (signed_overflow e s) eqn:Hov.
  - injection He as <-. split; [done |].
    exists pre, e, post, s, t. split_and!; try done. by left.
  - destruct (handle_Undefined e s u Hok He) as (Hc & Hctx & Hu).
    split.
    + by destruct Hu as [[_ ->] | [_ ->]].
    + exists pre, e, post, s, t. split_and!; try done. by right.
Qed.

Lemma X12_witness :
  run_strict (six_accepts ++ [read_event 6 1500 [ping]]) (initial_state 100)
    = Undefined NullDereference ∧
  NullDereference ≠ OutOfBounds ∧
  run_strict [accept_at_end_of_time] (initial_state 100) = Undefined SignedOverflow ∧
  SignedOverflow ≠ OutOfBounds.
Proof.
  assert (H1 : run_strict (six_accepts ++ [read_event 6 1500 [ping]]) (initial_state 100)
               = Undefined NullDereference) by (vm_compute; reflexivity).
  assert (H2 : run_strict [accept_at_end_of_time] (initial_state 100)
               = Undefined SignedOverflow) by (vm_compute; reflexivity).
  split_and!; [exact H1 | | exact H2 |].
  - exact (proj1 (X12_runs_fail_only_on_overflow_or_events_without_slot 100 _ _ H1)).
  - exact (proj1 (X12_runs_fail_only_on_overflow_or_events_without_slot 100 _ _ H2)).
Defined.

(** ** Events that change nothing *)

(** X13: the events that leave the state alone.  Only incoming
    connections, listener closes, timer events and the connected,
    disconnected and data-arrival events of a connection can change the
    state; every other event that is handled (listener open, proactor
    inactive, wake, need-read-buffers, read- or write-closed,
    write-completion, and any other type) leaves it exactly as it was,
    and so does any connection event that carries no connection. *)
Theorem X13_other_events_leave_the_state_alone e s b s' t :
  handle e s = Ok (b, s', t) →
  (event_type e ≠ PN_LISTENER_ACCEPT →
   event_type e ≠ PN_LISTENER_CLOSE →
   event_type e ≠ PN_PROACTOR_TIMEOUT →
   event_type e ≠ PN_RAW_CONNECTION_CONNECTED →
   event_type e ≠ PN_RAW_CONNECTION_DISCONNECTED →
   event_type e ≠ PN_RAW_CONNECTION_READ →
   s' = s) ∧
  (to_handle_receive (event_type e) = true → event_raw_connection e = NULL →
   s' = s ∧ t = []).
Proof.
  intros H. split.
  - intros Ha Hl Hti Hco Hdi Hre.
    destruct (event_type e) eqn:Ht; try done.
    + rewrite handle_listener_open in H by done. by injection H as <- <- <-.
    + rewrite handle_inactive in H by done. by injection H as <- <- <-.
    + (* wake *)
      rewrite handle_default in H by (by rewrite Ht).
      apply bind_Ok in H as ([] & s1 & t1 & t2 & Hw & H & ->).
      injection H as <- <- <-.
      destruct (is_null (event_raw_connection e)); simpl in Hw.
      * unfold ret in Hw. by injection Hw as <- <-.
      * destruct (contexts s !! event_raw_connection e) as [i |] eqn:Hc.
        -- rewrite (receive_wake_bound _ _ _ Ht Hc) in Hw. by injection Hw as <- <-.
        -- by rewrite (receive_wake_unbound _ _ Ht Hc) in Hw.
    + rewrite handle_default in H by (by rewrite Ht).
      apply bind_Ok in H as ([] & s1 & t1 & t2 & Hw & H & ->).
      injection H as <- <- <-.
      destruct (is_null (event_raw_connection e)); simpl in Hw;
        unfold handle_receive, ret in Hw; rewrite ?Ht in Hw; by injection Hw as <- <-.
    + rewrite handle_default in H by (by rewrite Ht).
      apply bind_Ok in H as ([] & s1 & t1 & t2 & Hw & H & ->).
      injection H as <- <- <-.
      destruct (is_null (event_raw_connection e)); simpl in Hw;
        [unfold ret in Hw | rewrite (receive_closed _ _ (or_introl Ht)) in Hw];
        by injection Hw as <- <-.
    + rewrite handle_default in H by (by rewrite Ht).
      apply bind_Ok in H as ([] & s1 & t1 & t2 & Hw & H & ->).
      injection H as <- <- <-.
      destruct (is_null (event_raw_connection e)); simpl in Hw;
        [unfold ret in Hw | rewrite (receive_closed _ _ (or_intror Ht)) in Hw];
        by injection Hw as <- <-.
    + rewrite handle_default in H by (by rewrite Ht).
      apply bind_Ok in H as ([] & s1 & t1 & t2 & Hw & H & ->).
      injection H as <- <- <-.
      destruct (is_null (event_raw_connection e)); simpl in Hw;
        [unfold ret in Hw | rewrite (receive_written _ _ Ht) in Hw];
        by injection Hw as <- <-.
    + rewrite handle_default in H by (by rewrite Ht).
      apply bind_Ok in H as ([] & s1 & t1 & t2 & Hw & H & ->).
      injection H as <- <- <-.
      destruct (is_null (event_raw_connection e)); simpl in Hw;
        unfold handle_receive, ret in Hw; rewrite ?Ht in Hw; by injection Hw as <- <-.
  - intros Hr Hc. rewrite handle_no_connection in H by done.
    by injection H as <- <- <-.
Qed.

Lemma X13_witness :
  ∃ s' t,
    handle (written_event 6 written_batches) busy_state = Ok (true, s', t) ∧
    s' = busy_state.
Proof.
  eexists _, _. split; [vm_compute; reflexivity |].
  destruct (X13_other_events_leave_the_state_alone
              (written_event 6 written_batches) busy_state true _ _
              ltac:(vm_compute; reflexivity)) as [Hsame _].
  apply Hsame; discriminate.
Defined.

(** ** What the global counters count *)

Lemma handle_receive_counters e s s' t :
  handle_receive e s = Ok (tt, s', t) →
  connects (app s') =
    (if bool_decide (event_type e = PN_RAW_CONNECTION_CONNECTED ∧
                     is_Some (contexts s !! event_raw_connection e))
     then to_int (connects (app s) + 1) else connects (app s)) ∧
  disconnects (app s') =
    (if bool_decide (event_type e = PN_RAW_CONNECTION_DISCONNECTED)
     then to_int (disconnects (app s) + 1) else disconnects (app s)).
Proof.
  intros H.
  destruct (contexts s !! event_raw_connection e) as [i |] eqn:Hc;
    [destruct (conn_data s !! i) as [d |] eqn:Hd |];
    destruct (event_type e) eqn:Ht;
    first
      [ rewrite (receive_connected_bound _ _ _ Ht Hc) in H
      | rewrite (receive_connected_unbound _ _ Ht Hc) in H
      | rewrite (receive_wake_bound _ _ _ Ht Hc) in H
      | rewrite (receive_wake_unbound _ _ Ht Hc) in H
      | rewrite (receive_disconnected_bound _ _ _ _ Ht Hc Hd) in H
      | rewrite (receive_disconnected_unbound _ _ Ht Hc) in H
      | rewrite (receive_disconnected_out_of_bounds _ _ _ Ht Hc Hd) in H
      | rewrite (receive_read_bound _ _ _ _ Ht Hc Hd) in H
      | rewrite (receive_read_unbound _ _ Ht Hc) in H
      | rewrite (receive_read_out_of_bounds _ _ _ Ht Hc Hd) in H
      | rewrite (receive_closed _ _ (or_introl Ht)) in H
      | rewrite (receive_closed _ _ (or_intror Ht)) in H
      | rewrite (receive_written _ _ Ht) in H
      | (unfold handle_receive in H; rewrite Ht in H; unfold ret in H) ];
    try discriminate; injection H as <- <-; split; reflexivity.
Qed.

(** X14: what [connects] and [disconnects] count.  In a state reached
    from [main], [connects] is incremented by the connected event of a
    connection that has a slot, and by nothing else; [disconnects] is
    incremented by the disconnected event of any connection, with or
    without a slot, and by nothing else. *)
Theorem X14_counters_count_connection_events e s b s' t :
  reachable s →
  handle e s = Ok (b, s', t) →
  connects (app s') =
    (if bool_decide (event_type e = PN_RAW_CONNECTION_CONNECTED ∧
                     event_raw_connection e ≠ NULL ∧
                     is_Some (contexts s !! event_raw_connection e))
     then to_int (connects (app s) + 1) else connects (app s)) ∧
  disconnects (app s') =
    (if bool_decide (event_type e = PN_RAW_CONNECTION_DISCONNECTED ∧
                     event_raw_connection e ≠ NULL)
     then to_int (disconnects (app s) + 1) else disconnects (app s)).
Proof.
  intros ([Hlen _] & _)%reachable_ok H.
  destruct (to_handle_receive (event_type e)) eqn:Hr.
  - rewrite handle_default in H by done.
    apply bind_Ok in H as ([] & s1 & t1 & t2 & Hw & H & ->).
    injection H as <- <- <-. unfold is_null in Hw.
    destruct (Z.eqb_spec (event_raw_connection e) NULL) as [Heq | Hne]; simpl in Hw.
    + unfold ret in Hw. injection Hw as <- <-.
      rewrite !bool_decide_eq_false_2 by tauto. done.
    + apply handle_receive_counters in Hw as [-> ->]. split.
      * apply (f_equal (fun b : bool => if b then _ else _)).
        apply bool_decide_ext. tauto.
      * apply (f_equal (fun b : bool => if b then _ else _)).
        apply bool_decide_ext. tauto.
  - assert (Hnc : event_type e ≠ PN_RAW_CONNECTION_CONNECTED) by (intros Ht; by rewrite Ht in Hr).
    assert (Hnd : event_type e ≠ PN_RAW_CONNECTION_DISCONNECTED) by (intros Ht; by rewrite Ht in Hr).
    rewrite !bool_decide_eq_false_2 by tauto.
    destruct (event_type e) eqn:Ht; try discriminate; clear Hr.
    + rewrite handle_listener_open in H by done. by injection H as <- <- <-.
    + destruct (first_free_slot (conn_data s)) as [Hall | (j & d & Hd & Hfree & Hall)].
      * rewrite handle_accept_full in H by done. by injection H as <- <- <-.
      * rewrite (handle_accept_free _ _ j d) in H by done. by injection H as <- <- <-.
    + destruct (condition e) as [[nm d] |] eqn:Hc.
      * rewrite (handle_listener_close_error _ _ nm d) in H by done.
        by injection H as <- <- <-.
      * rewrite handle_listener_close_clean in H by done. by injection H as <- <- <-.
    + unfold handle in H. rewrite Ht in H.
      apply bind_Ok in H as (r & s1 & t1 & t2 & Hh & H & ->).
      apply handle_timeout_frame in Hh as (_ & _ & _ & Hc1 & Hc2).
      apply bind_Ok in H as ([] & s2 & t3 & t4 & Hb & H & ->).
      injection H as <- <- <-.
      assert (s2 = s1) as -> by (destruct r; by injection Hb as <- <-).
      done.
    + rewrite handle_inactive in H by done. by injection H as <- <- <-.
Qed.

Lemma X14_witness :
  ∃ s' t,
    handle (connected_event 6 (four_blocks 393216)) (set_contexts (delete 6) busy_state)
      = Ok (true, s', t) ∧
    connects (app s') = 5.
Proof.
  assert (Hreach : reachable (set_contexts (delete 6) busy_state)).
  { exists 100, (take 5 six_accepts ++ take 5 (drop 6 six_connections_come_and_go)).
    eexists. vm_compute. reflexivity. }
  eexists _, _. split; [vm_compute; reflexivity |].
  destruct (X14_counters_count_connection_events
              (connected_event 6 (four_blocks 393216))
              (set_contexts (delete 6) busy_state) true _ _ Hreach
              ltac:(vm_compute; reflexivity)) as [Hc _].
  exact Hc.
Defined.

(** ** Where each call comes from *)

Lemma made_on_fmap {A} (f : A → action) ty (l : list A) :
  (∀ x, made_on (f x) ty = true) → Forall (fun a => made_on a ty = true) (map f l).
Proof. intros Hf. induction l; simpl; constructor; auto. Qed.

Lemma made_on_read_calls c batches :
  Forall (fun a => made_on a PN_RAW_CONNECTION_READ = true) (read_calls c batches).
Proof.
  unfold read_calls. induction (handled batches) as [| b l IH]; simpl; [constructor |].
  rewrite !Forall_app. split_and!; [by apply made_on_fmap | | done].
  unfold read_disposition.
  destruct (write_closed b), (read_closed b); simpl;
    try (by apply made_on_fmap); by repeat constructor.
Qed.

Lemma made_on_written_calls c batches :
  Forall (fun a => made_on a PN_RAW_CONNECTION_WRITTEN = true) (written_calls c batches).
Proof.
  unfold written_calls. induction (handled batches) as [| b l IH]; simpl; [constructor |].
  rewrite Forall_app. split; [| done].
  unfold written_disposition.
  destruct (read_closed b); simpl; try (by apply made_on_fmap); by repeat constructor.
Qed.

Lemma made_on_condition_report e ty :
  ty = PN_RAW_CONNECTION_DISCONNECTED ∨ ty = PN_LISTENER_CLOSE →
  Forall (fun a => made_on a ty = true) (condition_report e).
Proof.
  unfold condition_report.
  intros [-> | ->]; destruct (condition e) as [[n d] |]; by repeat constructor.
Qed.

Lemma handle_receive_made_on e s s' t :
  handle_receive e s = Ok (tt, s', t) →
  Forall (fun a => made_on a (event_type e) = true) t.
Proof.
  intros H.
  destruct (contexts s !! event_raw_connection e) as [i |] eqn:Hc;
    [destruct (conn_data s !! i) as [d |] eqn:Hd |];
    destruct (event_type e) eqn:Ht;
    first
      [ rewrite (receive_connected_bound _ _ _ Ht Hc) in H
      | rewrite (receive_connected_unbound _ _ Ht Hc) in H
      | rewrite (receive_wake_bound _ _ _ Ht Hc) in H
      | rewrite (receive_wake_unbound _ _ Ht Hc) in H
      | rewrite (receive_disconnected_bound _ _ _ _ Ht Hc Hd) in H
      | rewrite (receive_disconnected_unbound _ _ Ht Hc) in H
      | rewrite (receive_disconnected_out_of_bounds _ _ _ Ht Hc Hd) in H
      | rewrite (receive_read_bound _ _ _ _ Ht Hc Hd) in H
      | rewrite (receive_read_unbound _ _ Ht Hc) in H
      | rewrite (receive_read_out_of_bounds _ _ _ Ht Hc Hd) in H
      | rewrite (receive_closed _ _ (or_introl Ht)) in H
      | rewrite (receive_closed _ _ (or_intror Ht)) in H
      | rewrite (receive_written _ _ Ht) in H
      | (unfold handle_receive in H; rewrite Ht in H; unfold ret in H) ];
    try discriminate; injection H as <- <-;
    first [ apply made_on_read_calls | apply made_on_written_calls
          | apply Forall_cons; split; [reflexivity |];
            (apply made_on_condition_report; by left)
          | by repeat constructor ].
Qed.

Lemma handle_made_on e s b s' t :
  handle e s = Ok (b, s', t) →
  Forall (fun a => made_on a (event_type e) = true) t.
Proof.
  intros H.
  destruct (to_handle_receive (event_type e)) eqn:Hr.
  - rewrite handle_default in H by done.
    apply bind_Ok in H as ([] & s1 & t1 & t2 & Hw & H & ->).
    injection H as <- <- <-. rewrite app_nil_r.
    destruct (is_null (event_raw_connection e)); simpl in Hw.
    + unfold ret in Hw. injection Hw as <- <-. constructor.
    + by eapply handle_receive_made_on.
  - destruct (event_type e) eqn:Ht; try discriminate; clear Hr.
    + rewrite handle_listener_open in H by done. injection H as <- <- <-.
      by repeat constructor.
    + unfold handle in H. rewrite Ht in H.
      apply bind_Ok in H as (c & s1 & t1 & t2 & Hn & H & ->).
      unfold pn_raw_connection, bind, modify, ret in Hn. injection Hn as <- <- <-.
      apply bind_Ok in H as (cd & s2 & t3 & t4 & Hm & H & ->).
      apply make_conn_data_loop_frame in Hm as (_ & _ & _ & _ & -> & _).
      apply bind_Ok in H as ([] & s3 & t5 & t6 & Hb & H & ->).
      injection H as <- <- <-. simpl. rewrite app_nil_r.
      destruct cd as [j |].
      * unfold bind, modify, get, when, call, ret, pn_raw_connection_set_context in Hb.
        simpl in Hb.
        destruct (wake_conn_time (app s2) <? now_64 e); injection Hb as <- <-;
          by repeat constructor.
      * unfold bind, call in Hb. injection Hb as <- <-. by repeat constructor.
    + destruct (condition e) as [[nm d] |] eqn:Hc.
      * rewrite (handle_listener_close_error _ _ nm d) in H by done.
        injection H as <- <- <-.
        destruct (is_null (event_raw_connection e)); by repeat constructor.
      * rewrite handle_listener_close_clean in H by done.
        injection H as <- <- <-. constructor.
    + unfold handle in H. rewrite Ht in H.
      apply bind_Ok in H as (r & s1 & t1 & t2 & Hh & H & ->).
      apply bind_Ok in H as ([] & s2 & t3 & t4 & Hb & H & ->).
      injection H as <- <- <-. rewrite app_nil_r. apply Forall_app. split.
      * unfold handle_timeout, bind at 1, get in Hh.
        destruct (to_int (connects (app s) - disconnects (app s)) =? 0).
        -- destruct (first_idle_time (app s) =? 0);
             [| destruct (to_int64 (first_idle_time (app s) + 20000) <=? now_64 e)];
             injection Hh as <- <- <-; by repeat constructor.
        -- destruct (wake_conn_time (app s) <=? now_64 e).
           ++ destruct (wake_loop MAX_CONNECTIONS 0 s) as [[[[] s3] t5] | u] eqn:Hw;
                [| by rewrite (bind_undefined _ _ _ u Hw) in Hh].
              erewrite bind_eq in Hh by exact Hw.
              unfold bind, modify, ret in Hh. simpl in Hh.
              injection Hh as <- <- <-. rewrite ?app_nil_r.
              apply wake_loop_calls in Hw.
              eapply Forall_impl; [exact Hw |].
              by intros a (d & _ & _ & ->).
           ++ injection Hh as <- <- <-. constructor.
      * destruct r; injection Hb as <- <-; by repeat constructor.
    + rewrite handle_inactive in H by done. injection H as <- <- <-. constructor.
Qed.

(** X16: every call is made on the events of its own kind.  Whatever
    the state, the calls the handler makes on an event are among those
    the table [made_on] lists for the type of the event.  So the listener
    is closed and connections are woken on timer events only; the timer
    is armed on incoming connections and timer events only; payload is
    written to the output and buffers are handed to the write side on
    data arrival only; memory is freed on data arrival and write
    completion only; a connection is accepted on an incoming connection
    only; and events of the types not in the table make no call at
    all. *)
Theorem X16_calls_are_made_on_their_own_events e s b s' t :
  handle e s = Ok (b, s', t) →
  Forall (fun a => made_on a (event_type e) = true) t.
Proof. apply handle_made_on. Qed.

Lemma X16_witness :
  ∃ s' t,
    handle (timeout_event 7000) busy_state = Ok (true, s', t) ∧
    Forall (fun a => made_on a PN_PROACTOR_TIMEOUT = true) t.
Proof.
  eexists _, _. split; [vm_compute; reflexivity |].
  apply (X16_calls_are_made_on_their_own_events (timeout_event 7000) busy_state true
           (set_app (with_wake_conn_time 12000) busy_state)).
  vm_compute. reflexivity.
Defined.

(** ** A connection from accept to disconnect *)

Lemma run_step e rest s s1 t1 :
  handle e s = Ok (true, s1, t1) →
  run (e :: rest) s =
    match run rest s1 with
    | Ok (b, s2, t2) => Ok (b, s2, t1 ++ t2)
    | Undefined u => Undefined u
    end.
Proof. intros H. simpl. by erewrite bind_eq by exact H. Qed.

(** X17: the life of a connection leaves no trace in the slot table.
    From a state reached from [main] that has a free slot, an incoming
    connection, its connected event and its disconnected event are
    handled without [run] returning; afterwards the slot table is what it
    was before the connection came, both counters are one higher, and
    [first_idle_time] is cleared. *)
Theorem X17_connection_lifecycle_restores_the_table e1 e2 e3 s c :
  reachable s →
  ¬ all_bound (conn_data s) →
  c ≠ NULL →
  event_type e1 = PN_LISTENER_ACCEPT → new_raw_connection e1 = c →
  event_type e2 = PN_RAW_CONNECTION_CONNECTED → event_raw_connection e2 = c →
  event_type e3 = PN_RAW_CONNECTION_DISCONNECTED → event_raw_connection e3 = c →
  ∃ s3 t,
    run [e1; e2; e3] s = Ok (false, s3, t) ∧
    conn_data s3 = conn_data s ∧
    connects (app s3) = to_int (connects (app s) + 1) ∧
    disconnects (app s3) = to_int (disconnects (app s) + 1) ∧
    first_idle_time (app s3) = 0 ∧
    exit_code s3 = 0.
Proof.
  intros ([Hlen _] & H0 & _)%reachable_ok Hfull Hc Ht1 Hn1 Ht2 Hc2 Ht3 Hc3.
  destruct (first_free_slot (conn_data s)) as [Hall | (j & d & Hd & Hfree & Hall)]; [done |].
  assert (Hj : (j < length (conn_data s))%nat) by (by eapply lookup_lt_Some).
  pose proof (handle_accept_free e1 s j d Ht1 Hlen Hd Hfree Hall) as H1.
  simpl in H1. rewrite H0, Hn1 in H1. simpl in H1.
  match type of H1 with _ = Ok (_, ?x, _) => set (s1 := x) in * end.
  assert (Hctx1 : contexts s1 !! event_raw_connection e2 = Some j).
  { rewrite Hc2. apply lookup_insert_eq. }
  pose proof (receive_connected_bound e2 s1 j Ht2 Hctx1) as H2.
  apply handle_receive_Ok in H2; [| by rewrite Ht2 | by rewrite Hc2].
  match type of H2 with _ = Ok (_, ?x, _) => set (s2 := x) in * end.
  assert (Hctx2 : contexts s2 !! event_raw_connection e3 = Some j).
  { rewrite Hc3. apply lookup_insert_eq. }
  assert (Hd2 : conn_data s2 !! j = Some (with_connection c d)).
  { simpl. by apply list_lookup_insert_eq. }
  pose proof (receive_disconnected_bound e3 s2 j _ Ht3 Hctx2 Hd2) as H3.
  apply handle_receive_Ok in H3; [| by rewrite Ht3 | by rewrite Hc3].
  eexists _, _. split.
  - rewrite (run_step _ _ _ _ _ H1), (run_step _ _ _ _ _ H2), (run_step _ _ _ _ _ H3).
    reflexivity.
  - simpl. split_and!; try done.
    rewrite list_insert_insert_eq, with_connection_release by done.
    by apply list_insert_id.
Qed.

Lemma X17_witness :
  ∃ s3 t,
    run [accept_event 100 7 2000; connected_event 7 (four_blocks 458752);
         disconnected_event 7 None] slot_freed_state = Ok (false, s3, t) ∧
    conn_data s3 = conn_data slot_freed_state.
Proof.
  destruct (X17_connection_lifecycle_restores_the_table
              (accept_event 100 7 2000) (connected_event 7 (four_blocks 458752))
              (disconnected_event 7 None) slot_freed_state 7)
    as (s3 & t & H & Hcd & _); try reflexivity; try done.
  - apply slot_freed_state_reachable.
  - unfold all_bound. rewrite Forall_lookup. intros Hb.
    by apply (Hb 1%nat (mk_conn_data NULL 0 0 0)).
  - by exists s3, t.
Defined.

(** ** Freeing buffers *)

Lemma visited_not_null buffs buf : buf ∈ visited buffs → buf_bytes buf ≠ NULL.
Proof.
  induction buffs as [| b rest IH]; simpl; [by intros ?%elem_of_nil |].
  unfold is_null. destruct (Z.eqb_spec (buf_bytes b) NULL) as [Heq | Hne].
  - by intros ?%elem_of_nil.
  - intros [-> | Hin]%elem_of_cons; [done | by apply IH].
Qed.

Lemma freed_not_null buffs : free NULL ∉ freed buffs.
Proof.
  unfold freed. intros (buf & Heq & Hin)%list_elem_of_fmap.
  injection Heq as Heq. by apply visited_not_null in Hin.
Qed.

Lemma read_calls_free_not_null c batches : free NULL ∉ read_calls c batches.
Proof.
  unfold read_calls. intros Hin.
  apply list_elem_of_In, in_flat_map in Hin as (b & _ & Hin).
  apply in_app_or in Hin as [Hin | Hin].
  - unfold delivered in Hin. apply in_map_iff in Hin as (buf & Heq & _). discriminate.
  - unfold read_disposition in Hin.
    destruct (write_closed b), (read_closed b); simpl in Hin;
      try (destruct Hin as [Heq | []]; discriminate).
    by apply list_elem_of_In, freed_not_null in Hin.
Qed.

Lemma written_calls_free_not_null c batches : free NULL ∉ written_calls c batches.
Proof.
  unfold written_calls. intros Hin.
  apply list_elem_of_In, in_flat_map in Hin as (b & _ & Hin).
  unfold written_disposition in Hin.
  destruct (read_closed b); simpl in Hin;
    try (destruct Hin as [Heq | []]; discriminate).
  by apply list_elem_of_In, freed_not_null in Hin.
Qed.

(** X18: a null pointer is never freed.  Whatever event is handled in
    whatever state, no call of [free] gets a null pointer: the loops
    that free buffers stop at the first buffer whose [bytes] is null. *)
Theorem X18_never_frees_a_null_pointer e s b s' t :
  handle e s = Ok (b, s', t) → free NULL ∉ t.
Proof.
  intros H Hin.
  pose proof (handle_made_on _ _ _ _ _ H) as Hmade.
  rewrite Forall_forall in Hmade. specialize (Hmade _ Hin).
  assert (Hr : to_handle_receive (event_type e) = true)
    by (destruct (event_type e); try discriminate; done).
  rewrite handle_default in H by done.
  apply bind_Ok in H as ([] & s1 & t1 & t2 & Hw & H & ->).
  injection H as <- <- <-. rewrite app_nil_r in Hin.
  destruct (is_null (event_raw_connection e)); simpl in Hw.
  { unfold ret in Hw. injection Hw as <- <-. by apply elem_of_nil in Hin. }
  destruct (event_type e) eqn:Ht; try discriminate.
  - destruct (contexts s !! event_raw_connection e) as [i |] eqn:Hc.
    + destruct (conn_data s !! i) as [d |] eqn:Hd.
      * rewrite (receive_read_bound _ _ _ _ Ht Hc Hd) in Hw. injection Hw as <- <-.
        by apply read_calls_free_not_null in Hin.
      * by rewrite (receive_read_out_of_bounds _ _ _ Ht Hc Hd) in Hw.
    + by rewrite (receive_read_unbound _ _ Ht Hc) in Hw.
  - rewrite (receive_written _ _ Ht) in Hw. injection Hw as <- <-.
    by apply written_calls_free_not_null in Hin.
Qed.

Lemma X18_witness :
  ∃ s' t,
    handle (written_event 6 [mk_taken [mk_raw_buffer 0 NULL 1024 0 0] true true]) busy_state
      = Ok (true, s', t) ∧
    free NULL ∉ t.
Proof.
  eexists _, _. split; [vm_compute; reflexivity |].
  apply (X18_never_frees_a_null_pointer
           (written_event 6 [mk_taken [mk_raw_buffer 0 NULL 1024 0 0] true true])
           busy_state true busy_state).
  vm_compute. reflexivity.
Defined.
